(** * tracker_app.py: multi-tracker orchestration, shallow embedding

    The development follows [src/tracker_app.py].  The three name-keyed
    Python dicts ([trackers], [lost], [survival]) are insertion-ordered
    association lists; OpenCV is a record of functions ([cv2]); everything
    the program does to the outside (printing, reading the capture,
    calling a tracker, showing a frame) is recorded in a trace of events. *)

From Stdlib Require Import String Ascii List Bool Arith ZArith QArith Lia.
From Stdlib Require Import DecimalString.
Import ListNotations.

Local Open Scope string_scope.
Local Open Scope list_scope.

(** ** Python values *)

(** An uncaught Python exception (KeyError, NameError, ...) is [None]. *)
Definition py (A : Type) : Type := option A.

Definition bind {A B : Type} (c : py A) (k : A -> py B) : py B :=
  match c with
  | Some a => k a
  | None => None
  end.

Notation "x <- c ;; k" := (bind c (fun x => k))
  (at level 61, c at next level, right associativity).
Notation "' p <- c ;; k" := (bind c (fun x => let 'p := x in k))
  (at level 61, p pattern, c at next level, right associativity).

(** The outcome of a call inside [try: ... except Exception as e]:
    a value, or the exception, kept as its message [str(e)]. *)
Inductive result (A : Type) : Type :=
| Ok (a : A)
| Raise (msg : string).
Arguments Ok {A} a.
Arguments Raise {A} msg.

(** [int(v)] on a finite number: truncation toward zero. *)
Definition int (v : Q) : Z := Z.quot (Qnum v) (Z.pos (Qden v)).

(** [str.lower] on an ASCII string. *)
Definition lower_ascii (c : ascii) : ascii :=
  let n := nat_of_ascii c in
  if (65 <=? n)%nat && (n <=? 90)%nat then ascii_of_nat (n + 32) else c.

Fixpoint lower (s : string) : string :=
  match s with
  | EmptyString => EmptyString
  | String c s' => String (lower_ascii c) (lower s')
  end.

(** [str(n)] for a non-negative integer. *)
Definition str (n : nat) : string := NilEmpty.string_of_uint (Nat.to_uint n).

Fixpoint spaces (n : nat) : string :=
  match n with
  | O => ""
  | S n' => String " " (spaces n')
  end.

(** The format spec [{s:9s}] (here with any width): left-justified, padded
    with spaces, never truncated. *)
Definition ljust (width : nat) (s : string) : string :=
  s ++ spaces (width - String.length s).

(** ** Insertion-ordered dicts *)

Section Dict.
Context {V : Type}.

Definition dict : Type := list (string * V).

Fixpoint dict_get (d : dict) (k : string) : option V :=
  match d with
  | [] => None
  | (k', v) :: d' => if String.eqb k' k then Some v else dict_get d' k
  end.

(** [d[k] = v]: an existing key keeps its position, a new key goes last. *)
Fixpoint dict_set (d : dict) (k : string) (v : V) : dict :=
  match d with
  | [] => [(k, v)]
  | (k', v') :: d' =>
      if String.eqb k' k then (k', v) :: d' else (k', v') :: dict_set d' k v
  end.

Definition keys (d : dict) : list string := map fst d.

(** [d.get(k, default)] *)
Definition dict_get_default (d : dict) (k : string) (default : V) : V :=
  match dict_get d k with
  | Some v => v
  | None => default
  end.
End Dict.
Arguments dict V : clear implicits.

(** ** The OpenCV boundary *)

(** What the program uses of [cv2].  A tracker object is its internal state;
    [init] and [update] mutate the object, so they return the new state.
    A factory such as [cv2.legacy.TrackerCSRT_create] is an attribute that may
    be absent ([hasattr]) and whose call may raise; [legacy] is [None] when
    the module has no [legacy] namespace.  [tracker_init] may raise, and
    what it returns is not looked at (line 73).  Assumptions at this
    boundary: the library calls are functions of their arguments, [update]
    and the matcher return rather than raise, confidences and box coordinates
    are finite numbers, and method names are ASCII. *)
Record cv2 : Type := {
  Frame : Type;
  Gray : Type;
  Tracker : Type;
  cvtColor : Frame -> Gray;
  crop : Gray -> Z -> Z -> Z -> Z -> Gray;
  Scores : Type;
  matchTemplate : Gray -> Gray -> Scores;
  minMaxLoc : Scores -> Q * Q * (Z * Z) * (Z * Z);
  legacy : option (string -> option (result Tracker));
  attr : string -> option (result Tracker);
  tracker_init : Tracker -> Frame -> Z * Z * Z * Z -> result Tracker;
  tracker_update : Tracker -> Frame -> Tracker * (bool * (Q * Q * Q * Q))
}.

(** ** Events *)

Inductive event : Type :=
| Print (s : string)
| Read (ok : bool)
| SelectROI
| Match (frame_no : nat) (max_val : Q) (max_loc : Z * Z)
| Update (name : string) (frame_no : nat)
| Show (frame_no : nat).

Definition newline : string := String (ascii_of_nat 10) "".

(** ** The session *)

Section Program.
Variable E : cv2.

(** The local variables of [run_tracking] that live across the frame loop.
    [template] is bound only when [use_template] holds. *)
Record session : Type := {
  trackers : dict (option (Tracker E));
  lost : dict bool;
  survival : dict nat;
  use_template : bool;
  template : option (Gray E);
  total_frames : nat
}.

Definition set_trackers (st : session) (d : dict (option (Tracker E))) :=
  {| trackers := d; lost := lost st; survival := survival st;
     use_template := use_template st; template := template st;
     total_frames := total_frames st |}.

Definition set_lost (st : session) (d : dict bool) :=
  {| trackers := trackers st; lost := d; survival := survival st;
     use_template := use_template st; template := template st;
     total_frames := total_frames st |}.

Definition set_survival (st : session) (d : dict nat) :=
  {| trackers := trackers st; lost := lost st; survival := d;
     use_template := use_template st; template := template st;
     total_frames := total_frames st |}.

Definition set_total_frames (st : session) (n : nat) :=
  {| trackers := trackers st; lost := lost st; survival := survival st;
     use_template := use_template st; template := template st;
     total_frames := n |}.

(** ** create_tracker *)

Definition _create (name : string) : result (Tracker E) :=
  match match legacy E with
        | Some has => has name
        | None => None
        end with
  | Some call => call
  | None =>
      match attr E name with
      | Some call => call
      | None =>
          Raise ("Tracker type '" ++ name ++
                 "' is not available in your OpenCV build.")
      end
  end.

Definition create_tracker (tracker_type : string) : result (Tracker E) :=
  let tracker_type := lower tracker_type in
  if tracker_type =? "csrt" then _create "TrackerCSRT_create"
  else if tracker_type =? "kcf" then _create "TrackerKCF_create"
  else if tracker_type =? "mosse" then _create "TrackerMOSSE_create"
  else Raise ("Unknown tracker type: " ++ tracker_type).

(** The body of the [try] of the initialization loop, up to the first
    statement that can raise: [t = create_tracker(m); t.init(...)]. *)
Definition try_init (first_frame : Frame E) (bbox : Z * Z * Z * Z)
    (m : string) : result (Tracker E) :=
  match create_tracker m with
  | Ok t => tracker_init E t first_frame bbox
  | Raise e => Raise e
  end.

(** ** Initialization (lines 54-79) *)

Definition init_template (first_frame : Frame E) (bbox : Z * Z * Z * Z)
    (methods : list string) : session :=
  let '(x, y, w, h) := bbox in
  let use_template := existsb (String.eqb "template") methods in
  if use_template then
    let first_gray := cvtColor E first_frame in
    {| trackers := dict_set [] "template" None;
       lost := dict_set [] "template" false;
       survival := dict_set [] "template" 0%nat;
       use_template := true;
       template := Some (crop E first_gray x y w h);
       total_frames := 0 |}
  else
    {| trackers := []; lost := []; survival := [];
       use_template := false; template := None; total_frames := 0 |}.

Fixpoint init_builtin (first_frame : Frame E) (bbox : Z * Z * Z * Z)
    (methods : list string) (st : session) : session * list event :=
  match methods with
  | [] => (st, [])
  | m :: rest =>
      if m =? "template" then init_builtin first_frame bbox rest st
      else
        match try_init first_frame bbox m with
        | Ok t =>
            let st := set_trackers st (dict_set (trackers st) m (Some t)) in
            let st := set_lost st (dict_set (lost st) m false) in
            let st := set_survival st (dict_set (survival st) m 0%nat) in
            let '(st', evs) := init_builtin first_frame bbox rest st in
            (st', Print ("[INFO] Initialized tracker: " ++ m) :: evs)
        | Raise e =>
            let '(st', evs) := init_builtin first_frame bbox rest st in
            (st', Print ("[WARN] Could not create tracker '" ++ m ++ "': " ++ e)
                    :: evs)
        end
  end.

Definition init_session (first_frame : Frame E) (bbox : Z * Z * Z * Z)
    (methods : list string) : session * list event :=
  init_builtin first_frame bbox methods (init_template first_frame bbox methods).

(** ** One frame (lines 91-149) *)

Definition threshold : Q := 0.5.

(** Lines 97-99: the match step. *)
Definition match_step (frame : Frame E) (template : Gray E) : Q * (Z * Z) :=
  let gray := cvtColor E frame in
  let res := matchTemplate E gray template in
  let '(_, max_val, _, max_loc) := minMaxLoc E res in
  (max_val, max_loc).

Definition template_step (frame : Frame E) (st : session)
    : py (session * list event) :=
  if use_template st then
    is_lost <- dict_get (lost st) "template" ;;
    if negb is_lost then
      tpl <- template st ;;
      let '(max_val, max_loc) := match_step frame tpl in
      let ev := [Match (total_frames st) max_val max_loc] in
      if negb (Qle_bool threshold max_val) then
        Some (set_lost st (dict_set (lost st) "template" true), ev)
      else
        n <- dict_get (survival st) "template" ;;
        Some (set_survival st (dict_set (survival st) "template" (S n)), ev)
    else Some (st, [])
  else Some (st, []).

(** The body of [for name, tracker in trackers.items()] for one item. *)
Definition builtin_step (frame : Frame E) (name : string)
    (tracker : option (Tracker E)) (st : session) : py (session * list event) :=
  if name =? "template" then Some (st, [])
  else if dict_get_default (lost st) name true then Some (st, [])
  else
    t <- tracker ;;
    let '(t', (ok, bbox)) := tracker_update E t frame in
    let st := set_trackers st (dict_set (trackers st) name (Some t')) in
    let ev := [Update name (total_frames st)] in
    if negb ok then Some (set_lost st (dict_set (lost st) name true), ev)
    else
      let '(bx, by_, bw, bh) := bbox in
      let bw := int bw in
      let bh := int bh in
      if (bw <=? 0)%Z || (bh <=? 0)%Z then
        Some (set_lost st (dict_set (lost st) name true), ev)
      else
        n <- dict_get (survival st) name ;;
        Some (set_survival st (dict_set (survival st) name (S n)), ev).

Fixpoint builtin_loop (frame : Frame E)
    (items : list (string * option (Tracker E))) (st : session)
    : py (session * list event) :=
  match items with
  | [] => Some (st, [])
  | (name, tracker) :: rest =>
      '(st1, ev1) <- builtin_step frame name tracker st ;;
      '(st2, ev2) <- builtin_loop frame rest st1 ;;
      Some (st2, ev1 ++ ev2)
  end.

Definition process_frame (frame : Frame E) (st : session)
    : py (session * list event) :=
  let st := set_total_frames st (S (total_frames st)) in
  '(st1, ev1) <- template_step frame st ;;
  '(st2, ev2) <- builtin_loop frame (trackers st1) st1 ;;
  Some (st2, ev1 ++ ev2 ++ [Show (total_frames st2)]).

(** ** The frame loop (lines 87-154) *)

(** [key == 27 or key == ord('q')] after [key = cv2.waitKey(30) & 0xFF]. *)
Definition quit_key (k : Z) : bool :=
  let key := Z.land k 255 in
  (key =? 27)%Z || (key =? 113)%Z.

(** [frames] are the frames the capture still delivers; [waitKey n] is what
    [cv2.waitKey] returns after frame number [n] is shown. *)
Fixpoint frame_loop (frames : list (Frame E)) (waitKey : nat -> Z)
    (st : session) : py (session * list event) :=
  match frames with
  | [] => Some (st, [Read false])
  | frame :: rest =>
      '(st1, ev1) <- process_frame frame st ;;
      if quit_key (waitKey (total_frames st1)) then
        Some (st1, Read true :: ev1)
      else
        '(st2, ev2) <- frame_loop rest waitKey st1 ;;
        Some (st2, Read true :: ev1 ++ ev2)
  end.

(** ** The summary (lines 160-163) *)

Definition summary_line (total : nat) (entry : string * nat) : string :=
  ljust 9 (fst entry) ++ ": survived " ++ str (snd entry) ++ " / " ++
  str total ++ " frames".

Definition summary (st : session) : list event :=
  Print (newline ++ "=== Tracking survival summary ===")
  :: Print ("Total frames processed: " ++ str (total_frames st))
  :: map (fun entry => Print (summary_line (total_frames st) entry))
       (survival st).

(** ** run_tracking *)

Definition roi_prompt : list event :=
  [ Print "[INFO] A window called 'Select ROI' should appear.";
    Print "       Use the mouse to drag a box around your object.";
    Print "       Then press ENTER or SPACE to confirm, or 'c' to cancel.";
    SelectROI ].

(** [isOpened] and [video] describe the capture opened on [video_path];
    [selectROI] is the box the user draws on the first frame.  The result
    is the trace and, when the frame loop was entered, the final session. *)
Definition run_tracking (isOpened : bool) (video : list (Frame E))
    (selectROI : Frame E -> Z * Z * Z * Z) (waitKey : nat -> Z)
    (video_path : string) (methods : list string)
    : py (list event * option session) :=
  if negb isOpened then
    Some ([Print ("[ERROR] Could not open video: " ++ video_path)], None)
  else
    match video with
    | [] =>
        Some ([Read false;
               Print "[ERROR] Could not read first frame from video."], None)
    | first_frame :: frames =>
        let init_bbox := selectROI first_frame in
        let '(x, y, w, h) := init_bbox in
        if (w =? 0)%Z || (h =? 0)%Z then
          Some (Read true :: roi_prompt ++
                [Print "[ERROR] Empty ROI selected. Exiting."], None)
        else
          let '(st0, ev0) := init_session first_frame (x, y, w, h) methods in
          match trackers st0 with
          | [] =>
              Some (Read true :: roi_prompt ++ ev0 ++
                    [Print "[ERROR] No valid trackers initialized. Exiting."],
                    None)
          | _ :: _ =>
              '(st, ev) <- frame_loop frames waitKey st0 ;;
              Some (Read true :: roi_prompt ++ ev0 ++ ev ++ summary st, Some st)
          end
    end.

End Program.

Arguments trackers {E} s.
Arguments lost {E} s.
Arguments survival {E} s.
Arguments use_template {E} s.
Arguments template {E} s.
Arguments total_frames {E} s.

(** ** A small OpenCV stand-in for concrete runs

    A frame carries the template confidence it will produce and the answer
    every built-in tracker gives on it.  CSRT is found under [cv2.legacy],
    KCF under [cv2], MOSSE is not in the build. *)
Module Demo.

Definition frame : Type := Q * (bool * (Q * Q * Q * Q)).

Definition env : cv2 := {|
  Frame := frame;
  Gray := Q;
  Tracker := string;
  cvtColor := fun f => fst f;
  crop := fun g _ _ _ _ => g;
  Scores := Q;
  matchTemplate := fun gray _ => gray;
  minMaxLoc := fun s => (0, s, (0, 0)%Z, (3, 4)%Z);
  legacy := Some (fun name =>
    if name =? "TrackerCSRT_create" then Some (Ok "csrt") else None);
  attr := fun name =>
    if name =? "TrackerKCF_create" then Some (Ok "kcf") else None;
  tracker_init := fun t _ _ => Ok t;
  tracker_update := fun t f => (t, snd f)
|}.

Definition good_box : bool * (Q * Q * Q * Q) := (true, (10, 10, 20, 20)).

(** A frame on which the template matcher reports confidence [c]. *)
Definition conf (c : Q) : frame := (c, good_box).

(** A frame on which the built-in trackers report [r]. *)
Definition box (r : bool * (Q * Q * Q * Q)) : frame := (1, r).

Definition roi (_ : frame) : Z * Z * Z * Z := (5, 5, 20, 20)%Z.

Definition no_key (_ : nat) : Z := (-1)%Z.

Definition run (video : list frame) (methods : list string) :=
  run_tracking env true video roi no_key "video.mp4" methods.

End Demo.

(** ** Dict lemmas *)

Section DictFacts.
Context {V : Type}.
Implicit Types (d : dict V) (k : string) (v : V).

Lemma dict_get_set_same d k v : dict_get (dict_set d k v) k = Some v.
Proof.
  induction d as [|[k' v'] d IH]; simpl.
  - now rewrite String.eqb_refl.
  - destruct (String.eqb k' k) eqn:Hk; simpl; rewrite Hk; auto.
Qed.

Lemma dict_get_set_other d k k' v :
  k <> k' -> dict_get (dict_set d k v) k' = dict_get d k'.
Proof.
  intros Hne. induction d as [|[k0 v0] d IH]; simpl.
  - apply String.eqb_neq in Hne. now rewrite Hne.
  - destruct (String.eqb k0 k) eqn:Hk; simpl.
    + apply String.eqb_eq in Hk. subst k0.
      apply String.eqb_neq in Hne. now rewrite Hne.
    + now rewrite IH.
Qed.

Lemma dict_get_in d k v : dict_get d k = Some v -> In k (keys d).
Proof.
  induction d as [|[k0 v0] d IH]; simpl; [discriminate|].
  destruct (String.eqb k0 k) eqn:Hk.
  - apply String.eqb_eq in Hk. auto.
  - auto.
Qed.

Lemma dict_get_none d k : dict_get d k = None <-> ~ In k (keys d).
Proof.
  induction d as [|[k0 v0] d IH]; simpl.
  - tauto.
  - destruct (String.eqb_spec k0 k) as [->|Hne].
    + split; [discriminate | intros H; exfalso; auto].
    + rewrite IH. tauto.
Qed.

Lemma in_keys_get d k : In k (keys d) -> exists v, dict_get d k = Some v.
Proof.
  intros Hin. destruct (dict_get d k) as [v|] eqn:Hg; [eauto|].
  apply dict_get_none in Hg. contradiction.
Qed.

Lemma keys_set_in d k v : In k (keys d) -> keys (dict_set d k v) = keys d.
Proof.
  induction d as [|[k0 v0] d IH]; simpl; [tauto|].
  destruct (String.eqb_spec k0 k) as [->|Hne]; simpl; auto.
  intros [H|H]; [contradiction|]. f_equal. auto.
Qed.

Lemma keys_set_notin d k v :
  ~ In k (keys d) -> keys (dict_set d k v) = keys d ++ [k].
Proof.
  induction d as [|[k0 v0] d IH]; simpl; auto.
  destruct (String.eqb_spec k0 k) as [->|Hne]; simpl.
  - intros H; exfalso; auto.
  - intros H. f_equal. auto.
Qed.
End DictFacts.

(** The keys of a dict after [d[k] = v], as a function of the keys before. *)
Definition add_key (ks : list string) (k : string) : list string :=
  if existsb (String.eqb k) ks then ks else ks ++ [k].

Lemma existsb_eqb_in (k : string) (ks : list string) :
  existsb (String.eqb k) ks = true <-> In k ks.
Proof.
  rewrite existsb_exists. split.
  - intros [x [Hin Heq]]. apply String.eqb_eq in Heq. now subst.
  - intros Hin. exists k. split; [assumption | apply String.eqb_refl].
Qed.

Lemma keys_dict_set {V : Type} (d : dict V) (k : string) (v : V) :
  keys (dict_set d k v) = add_key (keys d) k.
Proof.
  unfold add_key. destruct (existsb (String.eqb k) (keys d)) eqn:Hex.
  - apply keys_set_in. now apply existsb_eqb_in.
  - apply keys_set_notin. intros Hin. apply existsb_eqb_in in Hin. congruence.
Qed.

Lemma add_key_NoDup (ks : list string) (k : string) :
  NoDup ks -> NoDup (add_key ks k).
Proof.
  intros Hnd. unfold add_key.
  destruct (existsb (String.eqb k) ks) eqn:Hex; [assumption|].
  assert (Hnin : ~ In k ks).
  { intros Hin. apply existsb_eqb_in in Hin. congruence. }
  clear Hex. induction Hnd as [|x l Hx Hnd IH]; simpl.
  - constructor; [intros [] | constructor].
  - constructor.
    + rewrite in_app_iff. simpl. intros [H|[H|[]]]; [auto|].
      subst. apply Hnin. now left.
    + apply IH. intros H. apply Hnin. now right.
Qed.

Lemma add_key_in (ks : list string) (k x : string) :
  In x (add_key ks k) <-> In x ks \/ x = k.
Proof.
  unfold add_key. destruct (existsb (String.eqb k) ks) eqn:Hex.
  - apply existsb_eqb_in in Hex. split; [auto|]. intros [H| ->]; auto.
  - rewrite in_app_iff. simpl. intuition congruence.
Qed.

(** ** What one frame does to one entry *)

Section FrameFacts.
Variable E : cv2.
Implicit Types (st : session E) (name : string) (frame : Frame E).

(** The three dict slots of one name. *)
Definition entry st name : option (option (Tracker E)) * option bool * option nat :=
  (dict_get (trackers st) name, dict_get (lost st) name,
   dict_get (survival st) name).

(** The parts of the session no frame changes. *)
Definition same_frame_context st st' : Prop :=
  use_template st' = use_template st /\ template st' = template st /\
  total_frames st' = total_frames st.

Definition same_keys st st' : Prop :=
  keys (trackers st') = keys (trackers st) /\
  keys (lost st') = keys (lost st) /\
  keys (survival st') = keys (survival st).

Lemma get_default_false (d : dict bool) name :
  dict_get_default d name true = false -> dict_get d name = Some false.
Proof.
  unfold dict_get_default. destruct (dict_get d name) as [[]|]; congruence.
Qed.

(** Every way [builtin_step] can return. *)
Lemma builtin_step_inv frame name tr st st1 ev :
  builtin_step E frame name tr st = Some (st1, ev) ->
  (st1 = st /\ ev = [] /\
   (name = "template" \/ dict_get_default (lost st) name true = true))
  \/
  (name <> "template" /\ dict_get (lost st) name = Some false /\
   exists t t' ok bx by_ bw bh,
     tr = Some t /\
     tracker_update E t frame = (t', (ok, (bx, by_, bw, bh))) /\
     ev = [Update name (total_frames st)] /\
     let st0 := set_trackers E st (dict_set (trackers st) name (Some t')) in
     ((negb ok || ((int bw <=? 0)%Z || (int bh <=? 0)%Z) = true /\
       st1 = set_lost E st0 (dict_set (lost st) name true))
      \/
      (negb ok || ((int bw <=? 0)%Z || (int bh <=? 0)%Z) = false /\
       exists n, dict_get (survival st) name = Some n /\
         st1 = set_survival E st0 (dict_set (survival st) name (S n))))).
Proof.
  unfold builtin_step.
  destruct (String.eqb_spec name "template") as [Heq|Hne].
  { intros H; inversion H; subst. left. auto. }
  destruct (dict_get_default (lost st) name true) eqn:Hl.
  { intros H; inversion H; subst. left. auto. }
  apply get_default_false in Hl.
  destruct tr as [t|]; simpl; [|discriminate].
  destruct (tracker_update E t frame) as [t' [ok [[[bx by_] bw] bh]]] eqn:Hu.
  intros H. right. split; [assumption|]. split; [assumption|].
  exists t, t', ok, bx, by_, bw, bh.
  split; [reflexivity|]. split; [exact Hu|].
  destruct ok; simpl in *.
  - destruct ((int bw <=? 0)%Z || (int bh <=? 0)%Z) eqn:Hbox.
    + inversion H; subst. split; [reflexivity|]. left. auto.
    + destruct (dict_get (survival st) name) as [n|] eqn:Hs; simpl in H;
        [|discriminate].
      inversion H; subst. split; [reflexivity|]. right.
      split; [reflexivity|]. exists n. auto.
  - inversion H; subst. split; [reflexivity|]. left. auto.
Qed.

Lemma builtin_step_context frame name tr st st1 ev :
  builtin_step E frame name tr st = Some (st1, ev) -> same_frame_context st st1.
Proof.
  intros H. apply builtin_step_inv in H.
  destruct H as [[-> _]|[_ [_ (t & t' & ok & bx & by_ & bw & bh & _ & _ & _ & H)]]].
  - repeat split.
  - destruct H as [[_ ->]|[_ [n [_ ->]]]]; repeat split.
Qed.

(** A step on [name] leaves every other entry alone. *)
Lemma builtin_step_other frame name tr st st1 ev other :
  builtin_step E frame name tr st = Some (st1, ev) ->
  other <> name -> entry st1 other = entry st other.
Proof.
  intros H Hne. apply builtin_step_inv in H.
  destruct H as [[-> _]|[_ [_ (t & t' & ok & bx & by_ & bw & bh & _ & _ & _ & H)]]];
    [reflexivity|].
  unfold entry.
  destruct H as [[_ ->]|[_ [n [_ ->]]]]; simpl;
    rewrite ?dict_get_set_other by congruence; reflexivity.
Qed.

(** A step on a lost entry does nothing at all. *)
Lemma builtin_step_lost frame name tr st st1 ev :
  builtin_step E frame name tr st = Some (st1, ev) ->
  dict_get (lost st) name = Some true -> st1 = st /\ ev = [].
Proof.
  intros H Hl. apply builtin_step_inv in H.
  destruct H as [[-> [-> _]]|[_ [Hf _]]]; [auto | congruence].
Qed.

Lemma builtin_step_events frame name tr st st1 ev e :
  builtin_step E frame name tr st = Some (st1, ev) -> In e ev ->
  e = Update name (total_frames st) /\ dict_get (lost st) name = Some false /\
  name <> "template".
Proof.
  intros H Hin. apply builtin_step_inv in H.
  destruct H as [[_ [-> _]]|[Hne [Hl (t & t' & ok & bx & by_ & bw & bh & _ & _ & -> & _)]]].
  - destruct Hin.
  - destruct Hin as [<-|[]]. auto.
Qed.

Lemma builtin_step_keys frame name tr st st1 ev :
  builtin_step E frame name tr st = Some (st1, ev) ->
  keys (lost st) = keys (trackers st) -> same_keys st st1.
Proof.
  intros H Hk. apply builtin_step_inv in H.
  destruct H as [[-> _]|[_ [Hl (t & t' & ok & bx & by_ & bw & bh & _ & _ & _ & H)]]];
    [repeat split|].
  pose proof (dict_get_in _ _ _ Hl) as Hin.
  assert (Hin' : In name (keys (trackers st))) by now rewrite <- Hk.
  destruct H as [[_ ->]|[_ [n [Hs ->]]]]; unfold same_keys; simpl;
    rewrite ?keys_set_in; auto.
  eapply dict_get_in; eauto.
Qed.
End FrameFacts.

(** ** The loop over the built-in trackers *)

Section BuiltinLoopFacts.
Variable E : cv2.
Implicit Types (st : session E) (name : string) (frame : Frame E).
Implicit Types (items : list (string * option (Tracker E))).

Lemma builtin_loop_cons frame name tr items st st' evs :
  builtin_loop E frame ((name, tr) :: items) st = Some (st', evs) ->
  exists st1 ev1 ev2,
    builtin_step E frame name tr st = Some (st1, ev1) /\
    builtin_loop E frame items st1 = Some (st', ev2) /\ evs = ev1 ++ ev2.
Proof.
  simpl. destruct (builtin_step E frame name tr st) as [[st1 ev1]|] eqn:H1;
    simpl; [|discriminate].
  destruct (builtin_loop E frame items st1) as [[st2 ev2]|] eqn:H2; simpl;
    [|discriminate].
  intros H; inversion H; subst. exists st1, ev1, ev2. auto.
Qed.

Lemma builtin_loop_context frame items : forall st st' evs,
  builtin_loop E frame items st = Some (st', evs) -> same_frame_context E st st'.
Proof.
  induction items as [|[name tr] items IH]; intros st st' evs H.
  - inversion H; subst. repeat split.
  - apply builtin_loop_cons in H. destruct H as (st1 & ev1 & ev2 & H1 & H2 & _).
    apply builtin_step_context in H1. apply IH in H2.
    unfold same_frame_context in *. intuition congruence.
Qed.

Lemma builtin_loop_keys frame items : forall st st' evs,
  builtin_loop E frame items st = Some (st', evs) ->
  keys (lost st) = keys (trackers st) -> same_keys E st st'.
Proof.
  induction items as [|[name tr] items IH]; intros st st' evs H Hk.
  - inversion H; subst. repeat split.
  - apply builtin_loop_cons in H. destruct H as (st1 & ev1 & ev2 & H1 & H2 & _).
    apply builtin_step_keys in H1; [|assumption].
    destruct H1 as (Ht & Hl & Hs).
    apply IH in H2; [|congruence].
    unfold same_keys in *. intuition congruence.
Qed.

(** Every event of the loop is an update of a listed tracker that was not
    lost when the loop started. *)
Lemma builtin_loop_events frame items : forall st st' evs e,
  builtin_loop E frame items st = Some (st', evs) -> In e evs ->
  exists name, e = Update name (total_frames st) /\ name <> "template" /\
    In name (map fst items) /\ dict_get (lost st) name <> Some true.
Proof.
  induction items as [|[name tr] items IH]; intros st st' evs e H Hin.
  - inversion H; subst. destruct Hin.
  - apply builtin_loop_cons in H.
    destruct H as (st1 & ev1 & ev2 & H1 & H2 & ->).
    apply in_app_or in Hin. destruct Hin as [Hin|Hin].
    + destruct (builtin_step_events _ _ _ _ _ _ _ _ H1 Hin) as (-> & Hl & Hne).
      exists name. simpl. intuition congruence.
    + destruct (IH _ _ _ _ H2 Hin) as (nm & -> & Hne & Hin' & Hl).
      exists nm. pose proof (builtin_step_context _ _ _ _ _ _ _ H1) as (_ & _ & Ht).
      split; [now rewrite Ht|]. split; [assumption|]. split; [now right|].
      intros Hl'. apply Hl.
      destruct (String.eqb_spec nm name) as [->|Hnn].
      * destruct (builtin_step_lost _ _ _ _ _ _ _ H1 Hl') as [-> _]. assumption.
      * pose proof (builtin_step_other _ _ _ _ _ _ _ nm H1 Hnn) as He.
        unfold entry in He. congruence.
Qed.

(** A name that is not listed keeps its entry. *)
Lemma builtin_loop_other frame items : forall st st' evs name,
  builtin_loop E frame items st = Some (st', evs) ->
  ~ In name (map fst items) -> entry E st' name = entry E st name.
Proof.
  induction items as [|[nm tr] items IH]; intros st st' evs name H Hnin.
  - inversion H; subst. reflexivity.
  - apply builtin_loop_cons in H. destruct H as (st1 & ev1 & ev2 & H1 & H2 & _).
    simpl in Hnin.
    rewrite (IH _ _ _ _ H2) by tauto.
    eapply builtin_step_other; eauto.
Qed.

(** A lost entry, and the template entry, keep their entries. *)
Lemma builtin_loop_skips frame items : forall st st' evs name,
  builtin_loop E frame items st = Some (st', evs) ->
  dict_get (lost st) name = Some true \/ name = "template" ->
  entry E st' name = entry E st name.
Proof.
  induction items as [|[nm tr] items IH]; intros st st' evs name H Hskip.
  - inversion H; subst. reflexivity.
  - apply builtin_loop_cons in H. destruct H as (st1 & ev1 & ev2 & H1 & H2 & _).
    assert (He : entry E st1 name = entry E st name).
    { destruct (String.eqb_spec name nm) as [->|Hne].
      - apply builtin_step_inv in H1.
        destruct H1 as [[-> _]|[Hnt [Hl _]]]; [reflexivity|].
        destruct Hskip; congruence.
      - eapply builtin_step_other; eauto. }
    rewrite <- He. eapply IH; eauto.
    destruct Hskip as [Hl|Ht]; [left|now right].
    unfold entry in He. congruence.
Qed.
End BuiltinLoopFacts.

Section BuiltinEntryFacts.
Variable E : cv2.
Implicit Types (st : session E) (name : string) (frame : Frame E).
Implicit Types (items : list (string * option (Tracker E))).

(** With distinct names, a listed entry is stepped exactly once, from a
    session that still holds the entry it had when the loop started. *)
Lemma builtin_loop_at frame items : forall st st' evs name tr,
  NoDup (map fst items) -> In (name, tr) items ->
  builtin_loop E frame items st = Some (st', evs) ->
  exists sa sb ev,
    builtin_step E frame name tr sa = Some (sb, ev) /\
    entry E sa name = entry E st name /\
    entry E st' name = entry E sb name /\
    total_frames sa = total_frames st /\
    (forall e, In e ev -> In e evs).
Proof.
  induction items as [|[nm tr0] items IH]; intros st st' evs name tr Hnd Hin H.
  - destruct Hin.
  - apply builtin_loop_cons in H.
    destruct H as (st1 & ev1 & ev2 & H1 & H2 & ->).
    simpl in Hnd. inversion Hnd as [|? ? Hnin Hnd']; subst.
    destruct Hin as [Heq|Hin].
    + inversion Heq; subst. exists st, st1, ev1.
      split; [assumption|]. split; [reflexivity|].
      split; [eapply builtin_loop_other; eauto|].
      split; [reflexivity|]. intros e He. apply in_or_app. now left.
    + assert (Hne : name <> nm).
      { intros ->. apply Hnin. apply (in_map fst) in Hin. exact Hin. }
      destruct (IH _ _ _ _ _ Hnd' Hin H2) as (sa & sb & ev & Hs & Ha & Hb & Ht & Hev).
      exists sa, sb, ev. split; [assumption|].
      split.
      { rewrite Ha. eapply builtin_step_other; eauto. }
      split; [assumption|].
      split.
      { rewrite Ht. apply builtin_step_context in H1. apply H1. }
      intros e He. apply in_or_app. right. auto.
Qed.

(** The loop on an active built-in entry: what [update] returned decides. *)
Lemma builtin_loop_entry frame items st st' evs name t n :
  NoDup (map fst items) -> In (name, Some t) items -> name <> "template" ->
  dict_get (lost st) name = Some false ->
  dict_get (survival st) name = Some n ->
  builtin_loop E frame items st = Some (st', evs) ->
  let '(t', (ok, (_, _, bw, bh))) := tracker_update E t frame in
  In (Update name (total_frames st)) evs /\
  entry E st' name =
    (Some (Some t'),
     Some (negb ok || ((int bw <=? 0)%Z || (int bh <=? 0)%Z)),
     Some (if negb ok || ((int bw <=? 0)%Z || (int bh <=? 0)%Z)
           then n else S n)).
Proof.
  intros Hnd Hin Hne Hl Hs H.
  destruct (builtin_loop_at _ _ _ _ _ _ _ Hnd Hin H)
    as (sa & sb & ev & Hstep & Ha & Hb & Ht & Hev).
  unfold entry in Ha. inversion Ha as [[Hat Hal Has]].
  apply builtin_step_inv in Hstep.
  destruct Hstep as [[_ [_ [Heq|Hd]]]|[_ [_ Hrun]]].
  - contradiction.
  - unfold dict_get_default in Hd. rewrite Hal, Hl in Hd. discriminate.
  - destruct Hrun as (t0 & t' & ok & bx & by_ & bw & bh & Ht0 & Hu & -> & Hcase).
    inversion Ht0; subst t0. rewrite Hu.
    split.
    { apply Hev. rewrite Ht. now left. }
    rewrite Hb. unfold entry.
    destruct Hcase as [[Hc ->]|[Hc [m [Hm ->]]]]; simpl; rewrite Hc;
      rewrite ?dict_get_set_same; congruence.
Qed.

(** The loop moves a survival count by at most one, and only for an entry
    that was not lost. *)
Lemma builtin_loop_survival frame items st st' evs name n' :
  NoDup (map fst items) ->
  builtin_loop E frame items st = Some (st', evs) ->
  dict_get (survival st') name = Some n' ->
  exists n, dict_get (survival st) name = Some n /\
    (n' = n \/ (n' = S n /\ dict_get (lost st) name = Some false)).
Proof.
  intros Hnd H Hs'.
  destruct (in_dec string_dec name (map fst items)) as [Hin|Hnin].
  - apply in_map_iff in Hin. destruct Hin as [[nm tr] [Hfst Hin]].
    simpl in Hfst. subst nm.
    destruct (builtin_loop_at _ _ _ _ _ _ _ Hnd Hin H)
      as (sa & sb & ev & Hstep & Ha & Hb & _ & _).
    unfold entry in Ha, Hb. inversion Ha as [[Hat Hal Has]].
    inversion Hb as [[Hbt Hbl Hbs]]. rewrite Hbs in Hs'.
    apply builtin_step_inv in Hstep.
    destruct Hstep as [[-> _]|[_ [Hl Hrun]]].
    + exists n'. split; [congruence | now left].
    + destruct Hrun as (t0 & t' & ok & bx & by_ & bw & bh & _ & _ & _ & Hcase).
      destruct Hcase as [[_ ->]|[_ [m [Hm ->]]]]; simpl in Hs'.
      * exists n'. split; [congruence | now left].
      * rewrite dict_get_set_same in Hs'. inversion Hs'; subst n'.
        exists m. split; [congruence|]. right. split; congruence.
  - pose proof (builtin_loop_other _ _ _ _ _ _ _ H Hnin) as He.
    unfold entry in He. exists n'. split; [congruence | now left].
Qed.
End BuiltinEntryFacts.

(** ** The template step and the whole frame *)

Section ProcessFrameFacts.
Variable E : cv2.
Implicit Types (st : session E) (name : string) (frame : Frame E).

(** Every way [template_step] can return. *)
Lemma template_step_inv frame st st1 ev :
  template_step E frame st = Some (st1, ev) ->
  (st1 = st /\ ev = [] /\
   (use_template st = false \/ dict_get (lost st) "template" = Some true))
  \/
  (use_template st = true /\ dict_get (lost st) "template" = Some false /\
   exists tpl, template st = Some tpl /\
     ev = [Match (total_frames st) (fst (match_step E frame tpl))
             (snd (match_step E frame tpl))] /\
     ((Qle_bool threshold (fst (match_step E frame tpl)) = false /\
       st1 = set_lost E st (dict_set (lost st) "template" true))
      \/
      (Qle_bool threshold (fst (match_step E frame tpl)) = true /\
       exists n, dict_get (survival st) "template" = Some n /\
         st1 = set_survival E st (dict_set (survival st) "template" (S n))))).
Proof.
  unfold template_step.
  destruct (use_template st) eqn:Hu.
  2:{ intros H; inversion H; subst. left. auto. }
  destruct (dict_get (lost st) "template") as [[]|] eqn:Hl; simpl;
    [ intros H; inversion H; subst; left; auto | | discriminate ].
  destruct (template st) as [tpl|] eqn:Ht; simpl; [|discriminate].
  destruct (match_step E frame tpl) as [max_val max_loc] eqn:Hm. simpl.
  intros H. right. split; [reflexivity|]. split; [reflexivity|].
  exists tpl. split; [reflexivity|]. rewrite Hm. simpl.
  destruct (Qle_bool threshold max_val) eqn:Hq; simpl in H.
  - destruct (dict_get (survival st) "template") as [n|] eqn:Hs; simpl in H;
      [|discriminate].
    inversion H; subst. split; [reflexivity|]. right. split; [reflexivity|].
    exists n. auto.
  - inversion H; subst. split; [reflexivity|]. left. auto.
Qed.

Lemma template_step_context frame st st1 ev :
  template_step E frame st = Some (st1, ev) ->
  same_frame_context E st st1 /\ trackers st1 = trackers st.
Proof.
  intros H. apply template_step_inv in H.
  destruct H as [[-> _]|(_ & _ & tpl & _ & _ & [[_ ->]|[_ (n & _ & ->)]])];
    repeat split.
Qed.

Lemma template_step_other frame st st1 ev name :
  template_step E frame st = Some (st1, ev) -> name <> "template" ->
  entry E st1 name = entry E st name.
Proof.
  intros H Hne. apply template_step_inv in H. unfold entry.
  destruct H as [[-> _]|(_ & _ & tpl & _ & _ & [[_ ->]|[_ (n & _ & ->)]])];
    simpl; rewrite ?dict_get_set_other by congruence; reflexivity.
Qed.

Lemma template_step_keys frame st st1 ev :
  template_step E frame st = Some (st1, ev) -> same_keys E st st1.
Proof.
  intros H. apply template_step_inv in H.
  destruct H as [[-> _]|(_ & Hl & tpl & _ & _ & [[_ ->]|[_ (n & Hs & ->)]])];
    unfold same_keys; simpl; rewrite ?keys_set_in; auto;
    eapply dict_get_in; eauto.
Qed.

Lemma process_frame_inv frame st st' evs :
  process_frame E frame st = Some (st', evs) ->
  exists st1 ev1 ev2,
    template_step E frame (set_total_frames E st (S (total_frames st)))
      = Some (st1, ev1) /\
    builtin_loop E frame (trackers st) st1 = Some (st', ev2) /\
    evs = ev1 ++ ev2 ++ [Show (S (total_frames st))] /\
    total_frames st1 = S (total_frames st).
Proof.
  unfold process_frame.
  destruct (template_step E frame _) as [[st1 ev1]|] eqn:H1; simpl;
    [|discriminate].
  destruct (builtin_loop E frame (trackers st1) st1) as [[st2 ev2]|] eqn:H2;
    simpl; [|discriminate].
  intros H; inversion H; subst.
  pose proof (template_step_context _ _ _ _ H1) as [(_ & _ & Ht) Htr].
  pose proof (builtin_loop_context _ _ _ _ _ _ H2) as (_ & _ & Ht').
  simpl in Ht, Htr. rewrite Htr in H2.
  exists st1, ev1, ev2. rewrite Ht', Ht. auto.
Qed.

(** Line 91: the counter moves by exactly one, whatever the entries do. *)
Lemma process_frame_total frame st st' evs :
  process_frame E frame st = Some (st', evs) ->
  total_frames st' = S (total_frames st) /\
  use_template st' = use_template st /\ template st' = template st.
Proof.
  intros H. apply process_frame_inv in H.
  destruct H as (st1 & ev1 & ev2 & H1 & H2 & _ & _).
  apply template_step_context in H1. destruct H1 as [(Hu & Ht & Hn) _].
  apply builtin_loop_context in H2. destruct H2 as (Hu' & Ht' & Hn').
  simpl in *. repeat split; congruence.
Qed.
End ProcessFrameFacts.

(** ** Well-formed sessions: the frame loop never raises *)

Section WellFormed.
Variable E : cv2.
Implicit Types (st : session E) (name : string) (frame : Frame E).

(** The three dicts hold the same names in the same order, the template is
    bound when it is used, and only the template entry has no tracker. *)
Record wf st : Prop := {
  wf_lost : keys (lost st) = keys (trackers st);
  wf_survival : keys (survival st) = keys (trackers st);
  wf_nodup : NoDup (keys (trackers st));
  wf_template : use_template st = true ->
    (exists tpl, template st = Some tpl) /\ In "template" (keys (lost st));
  wf_handle : forall name, dict_get (trackers st) name = Some None ->
    name = "template"
}.

Lemma in_dict_get {V : Type} (d : dict V) k v :
  NoDup (keys d) -> In (k, v) d -> dict_get d k = Some v.
Proof.
  induction d as [|[k0 v0] d IH]; simpl; intros Hnd Hin; [destruct Hin|].
  inversion Hnd as [|? ? Hnin Hnd']; subst.
  destruct Hin as [Heq|Hin].
  - inversion Heq; subst. now rewrite String.eqb_refl.
  - destruct (String.eqb_spec k0 k) as [->|Hne]; [|auto].
    exfalso. apply Hnin. apply (in_map fst) in Hin. exact Hin.
Qed.

Lemma template_step_progress frame st :
  wf st -> exists st1 ev, template_step E frame st = Some (st1, ev).
Proof.
  intros Hwf. unfold template_step.
  destruct (use_template st) eqn:Hu; [|eauto].
  destruct (wf_template st Hwf Hu) as [[tpl Ht] Hin].
  destruct (in_keys_get _ _ Hin) as [l Hl]. rewrite Hl. simpl.
  destruct l; simpl; [eauto|]. rewrite Ht. simpl.
  destruct (match_step E frame tpl) as [max_val max_loc].
  destruct (Qle_bool threshold max_val); simpl; [|eauto].
  assert (Hin' : In "template" (keys (survival st))).
  { rewrite (wf_survival st Hwf), <- (wf_lost st Hwf). exact Hin. }
  destruct (in_keys_get _ _ Hin') as [n Hn]. rewrite Hn. simpl. eauto.
Qed.

Lemma builtin_step_progress frame name tr st :
  keys (lost st) = keys (survival st) ->
  (tr = None -> name = "template") ->
  exists st1 ev, builtin_step E frame name tr st = Some (st1, ev).
Proof.
  intros Hk Htr. unfold builtin_step.
  destruct (String.eqb_spec name "template") as [->|Hne]; [eauto|].
  destruct (dict_get_default (lost st) name true) eqn:Hl; [eauto|].
  apply get_default_false in Hl.
  destruct tr as [t|]; [|exfalso; auto]. simpl.
  destruct (tracker_update E t frame) as [t' [ok [[[bx by_] bw] bh]]].
  destruct (negb ok); [eauto|].
  destruct ((int bw <=? 0)%Z || (int bh <=? 0)%Z); [eauto|].
  apply dict_get_in in Hl. rewrite Hk in Hl.
  destruct (in_keys_get _ _ Hl) as [n Hn]. rewrite Hn. simpl. eauto.
Qed.

Lemma builtin_loop_progress frame items : forall st,
  keys (lost st) = keys (trackers st) ->
  keys (survival st) = keys (trackers st) ->
  (forall name, In (name, None) items -> name = "template") ->
  exists st' evs, builtin_loop E frame items st = Some (st', evs).
Proof.
  induction items as [|[name tr] items IH]; intros st Hl Hs Hnone.
  - simpl. eauto.
  - destruct (builtin_step_progress frame name tr st) as (st1 & ev1 & H1).
    + congruence.
    + intros ->. apply Hnone. now left.
    + destruct (builtin_step_keys _ _ _ _ _ _ _ H1 Hl) as (Kt & Kl & Ks).
      destruct (IH st1) as (st2 & ev2 & H2).
      * congruence.
      * congruence.
      * intros nm Hin. apply Hnone. now right.
      * simpl. rewrite H1. simpl. rewrite H2. simpl. eauto.
Qed.

Lemma process_frame_progress frame st :
  wf st -> exists st' evs, process_frame E frame st = Some (st', evs).
Proof.
  intros Hwf. unfold process_frame.
  set (s0 := set_total_frames E st (S (total_frames st))).
  assert (Hwf0 : wf s0) by (destruct Hwf; constructor; assumption).
  destruct (template_step_progress frame s0 Hwf0) as (st1 & ev1 & H1).
  rewrite H1. simpl.
  destruct (template_step_keys _ _ _ _ _ H1) as (Kt & Kl & Ks).
  pose proof (template_step_context _ _ _ _ _ H1) as [_ Htr]. simpl in *.
  destruct (builtin_loop_progress frame (trackers st1) st1) as (st2 & ev2 & H2).
  - rewrite Kl, Kt. apply (wf_lost st Hwf).
  - rewrite Ks, Kt. apply (wf_survival st Hwf).
  - intros name Hin. rewrite Htr in Hin. apply (wf_handle st Hwf).
    apply in_dict_get; [apply (wf_nodup st Hwf) | assumption].
  - rewrite H2. simpl. eauto.
Qed.

Lemma process_frame_keys frame st st' evs :
  wf st -> process_frame E frame st = Some (st', evs) -> same_keys E st st'.
Proof.
  intros Hwf H. apply process_frame_inv in H.
  destruct H as (st1 & ev1 & ev2 & H1 & H2 & _ & _).
  destruct (template_step_keys _ _ _ _ _ H1) as (Kt & Kl & Ks). simpl in *.
  apply builtin_loop_keys in H2.
  - destruct H2 as (Kt' & Kl' & Ks'). unfold same_keys. intuition congruence.
  - rewrite Kl, Kt. apply (wf_lost st Hwf).
Qed.

Lemma process_frame_wf frame st st' evs :
  wf st -> process_frame E frame st = Some (st', evs) -> wf st'.
Proof.
  intros Hwf H.
  destruct (process_frame_keys _ _ _ _ Hwf H) as (Kt & Kl & Ks).
  destruct (process_frame_total _ _ _ _ _ H) as (_ & Hu & Ht).
  apply process_frame_inv in H.
  destruct H as (st1 & ev1 & ev2 & H1 & H2 & _ & _).
  constructor.
  - rewrite Kl, Kt. apply (wf_lost st Hwf).
  - rewrite Ks, Kt. apply (wf_survival st Hwf).
  - rewrite Kt. apply (wf_nodup st Hwf).
  - rewrite Hu, Ht, Kl. apply (wf_template st Hwf).
  - intros name Hnone.
    destruct (String.eqb_spec name "template") as [|Hne]; [assumption|].
    exfalso.
    assert (H1e : dict_get (trackers st1) name = dict_get (trackers st) name).
    { pose proof (template_step_other _ _ _ _ _ name H1 Hne) as He.
      unfold entry in He. simpl in He. congruence. }
    destruct (in_dec string_dec name (keys (trackers st))) as [Hin|Hnin].
    + apply in_map_iff in Hin. destruct Hin as [[nm tr] [Hfst Hin]].
      simpl in Hfst. subst nm.
      destruct (builtin_loop_at _ _ _ _ _ _ _ _ (wf_nodup st Hwf) Hin H2)
        as (sa & sb & ev & Hstep & Ha & Hb & _ & _).
      unfold entry in Ha, Hb. inversion Ha as [[Hat Hal Has]].
      inversion Hb as [[Hbt Hbl Hbs]].
      apply builtin_step_inv in Hstep.
      destruct Hstep as [[-> _]|[_ [_ Hrun]]].
      * apply Hne. apply (wf_handle st Hwf). congruence.
      * destruct Hrun as (t0 & t' & ok & bx & by_ & bw & bh & _ & _ & _ & Hc).
        rewrite Hbt in Hnone.
        destruct Hc as [[_ ->]|[_ [m [_ ->]]]]; simpl in Hnone;
          rewrite dict_get_set_same in Hnone; discriminate.
    + pose proof (builtin_loop_other _ _ _ _ _ _ name H2 Hnin) as He.
      unfold entry in He. apply Hne. apply (wf_handle st Hwf). congruence.
Qed.
End WellFormed.

(** ** Whole frames, entry by entry *)

Section SessionFacts.
Variable E : cv2.
Implicit Types (st : session E) (name : string) (frame : Frame E).

Definition is_update (name : string) (e : event) : Prop :=
  exists n, e = Update name n.

Definition is_match (e : event) : Prop :=
  exists n c l, e = Match n c l.

(** A lost entry goes through a frame untouched and uncalled. *)
Lemma process_frame_lost frame st st' evs name :
  process_frame E frame st = Some (st', evs) ->
  dict_get (lost st) name = Some true ->
  entry E st' name = entry E st name /\
  (forall e, In e evs -> ~ is_update name e) /\
  (name = "template" -> forall e, In e evs -> ~ is_match e).
Proof.
  intros H Hl. apply process_frame_inv in H.
  destruct H as (st1 & ev1 & ev2 & H1 & H2 & -> & _).
  assert (H1e : entry E st1 name = entry E st name /\
                (name = "template" -> ev1 = []) /\
                (forall e, In e ev1 -> is_match e)).
  { pose proof H1 as H1'. apply template_step_inv in H1'.
    destruct H1' as [[-> [-> _]]|(_ & Hf & tpl & _ & -> & Hc)].
    - split; [reflexivity|]. split; [auto|]. intros e [].
    - simpl in Hf. split.
      + apply (template_step_other _ _ _ _ _ name H1). congruence.
      + split; [intros ->; congruence|].
        intros e [<-|[]]. red. eauto. }
  destruct H1e as (He1 & Hev1 & Hm1).
  assert (Hl1 : dict_get (lost st1) name = Some true).
  { unfold entry in He1. inversion He1. congruence. }
  split.
  { rewrite <- He1. eapply builtin_loop_skips; eauto. }
  split.
  - intros e Hin [n ->].
    apply in_app_or in Hin. destruct Hin as [Hin|Hin].
    { apply Hm1 in Hin. destruct Hin as (? & ? & ? & Hx). discriminate. }
    apply in_app_or in Hin. destruct Hin as [Hin|[Hin|[]]]; [|discriminate].
    destruct (builtin_loop_events _ _ _ _ _ _ _ H2 Hin) as (nm & Hnm & _ & _ & Hnl).
    inversion Hnm; subst. contradiction.
  - intros Ht e Hin (n & c & l & ->).
    rewrite (Hev1 Ht) in Hin. simpl in Hin.
    apply in_app_or in Hin. destruct Hin as [Hin|[Hin|[]]]; [|discriminate].
    destruct (builtin_loop_events _ _ _ _ _ _ _ H2 Hin) as (nm & Hnm & _).
    discriminate.
Qed.

(** A frame moves a survival count by at most one, and only for an entry
    that was not lost. *)
Lemma process_frame_survival frame st st' evs name n' :
  wf E st -> process_frame E frame st = Some (st', evs) ->
  dict_get (survival st') name = Some n' ->
  exists n, dict_get (survival st) name = Some n /\
    (n' = n \/ (n' = S n /\ dict_get (lost st) name = Some false)).
Proof.
  intros Hwf H Hs'. apply process_frame_inv in H.
  destruct H as (st1 & ev1 & ev2 & H1 & H2 & _ & _).
  destruct (String.eqb_spec name "template") as [->|Hne].
  - pose proof (builtin_loop_skips _ _ _ _ _ _ "template" H2 (or_intror eq_refl)) as He.
    unfold entry in He. inversion He as [[Ht0 Hl0 Hs]]. rewrite Hs in Hs'.
    apply template_step_inv in H1.
    destruct H1 as [[-> _]|(_ & Hf & tpl & _ & _ & [[_ ->]|[_ (n & Hn & ->)]])];
      simpl in *.
    + eauto.
    + eauto.
    + rewrite dict_get_set_same in Hs'. inversion Hs'; subst. eauto.
  - pose proof (template_step_other _ _ _ _ _ name H1 Hne) as He.
    unfold entry in He. simpl in He. inversion He as [[Ht0 Hl Hs]].
    destruct (builtin_loop_survival _ _ _ _ _ _ _ _ (wf_nodup E st Hwf) H2 Hs')
      as (n & Hn & Hc).
    exists n. split; [congruence|].
    destruct Hc as [->|[-> Hf]]; [now left|right]. split; congruence.
Qed.

(** ** The sessions a run goes through *)

(** [visits st0 st]: [st] is the session some number of frames after [st0]. *)
Inductive visits (st0 : session E) : session E -> Prop :=
| visits_start : visits st0 st0
| visits_frame st frame st' evs :
    visits st0 st -> process_frame E frame st = Some (st', evs) ->
    visits st0 st'.

Lemma visits_first st0 frame st1 evs st :
  process_frame E frame st0 = Some (st1, evs) -> visits st1 st -> visits st0 st.
Proof.
  intros H Hv. induction Hv.
  - eapply visits_frame; [apply visits_start | eassumption].
  - eapply visits_frame; eassumption.
Qed.

Lemma visits_wf st0 st : wf E st0 -> visits st0 st -> wf E st.
Proof.
  intros Hwf Hv. induction Hv; [assumption|].
  eapply process_frame_wf; eauto.
Qed.

Lemma frame_loop_cons frame frames waitKey st st' evs :
  frame_loop E (frame :: frames) waitKey st = Some (st', evs) ->
  exists st1 ev1,
    process_frame E frame st = Some (st1, ev1) /\
    ((quit_key (waitKey (total_frames st1)) = true /\
      st' = st1 /\ evs = Read true :: ev1)
     \/
     (quit_key (waitKey (total_frames st1)) = false /\
      exists ev2, frame_loop E frames waitKey st1 = Some (st', ev2) /\
        evs = Read true :: ev1 ++ ev2)).
Proof.
  simpl. destruct (process_frame E frame st) as [[st1 ev1]|] eqn:H1; simpl;
    [|discriminate].
  destruct (quit_key (waitKey (total_frames st1))) eqn:Hq.
  - intros H; inversion H; subst. exists st', ev1. auto.
  - destruct (frame_loop E frames waitKey st1) as [[st2 ev2]|] eqn:H2; simpl;
      [|discriminate].
    intros H; inversion H; subst. exists st1, ev1.
    split; [reflexivity|]. right. split; [exact Hq|]. exists ev2. auto.
Qed.

Lemma frame_loop_visits frames waitKey : forall st st' evs,
  frame_loop E frames waitKey st = Some (st', evs) -> visits st st'.
Proof.
  induction frames as [|frame frames IH]; intros st st' evs H.
  - inversion H; subst. apply visits_start.
  - apply frame_loop_cons in H.
    destruct H as (st1 & ev1 & H1 & [(_ & -> & _)|(_ & ev2 & H2 & _)]).
    + eapply visits_frame; [apply visits_start | eassumption].
    + eapply visits_first; eauto.
Qed.

Lemma frame_loop_progress frames waitKey : forall st,
  wf E st -> exists st' evs, frame_loop E frames waitKey st = Some (st', evs).
Proof.
  induction frames as [|frame frames IH]; intros st Hwf; simpl; [eauto|].
  destruct (process_frame_progress E frame st Hwf) as (st1 & ev1 & H1).
  rewrite H1. simpl.
  destruct (quit_key (waitKey (total_frames st1))); [eauto|].
  destruct (IH st1) as (st2 & ev2 & H2).
  - eapply process_frame_wf; eauto.
  - rewrite H2. simpl. eauto.
Qed.
End SessionFacts.

(** ** Initialization *)

Section InitFacts.
Variable E : cv2.
Variable first_frame : Frame E.
Variable bbox : Z * Z * Z * Z.
Implicit Types (st : session E) (name m : string) (methods : list string).

(** [m] is a built-in method whose construction and first-frame
    initialization go through. *)
Definition initializes (m : string) : bool :=
  match try_init E first_frame bbox m with
  | Ok _ => true
  | Raise _ => false
  end.

Definition builtin_ok (m : string) : bool :=
  negb (m =? "template") && initializes m.

(** The names in the order in which their entries are first created: the
    template, when requested, then each built-in method at its first
    successful occurrence. *)
Definition init_order methods : list string :=
  fold_left add_key (filter builtin_ok methods)
    (if existsb (String.eqb "template") methods then ["template"] else []).

(** What the initialization loop prints, method by method. *)
Definition init_message (m : string) : list event :=
  if m =? "template" then []
  else match try_init E first_frame bbox m with
       | Ok _ => [Print ("[INFO] Initialized tracker: " ++ m)]
       | Raise e => [Print ("[WARN] Could not create tracker '" ++ m ++ "': " ++ e)]
       end.

(** A session before its first frame. *)
Record fresh st : Prop := {
  fresh_wf : wf E st;
  fresh_total : total_frames st = 0%nat;
  fresh_survival : forall name n, dict_get (survival st) name = Some n -> n = 0%nat;
  fresh_lost : forall name b, dict_get (lost st) name = Some b -> b = false;
  fresh_handle : forall name tr, name <> "template" ->
    dict_get (trackers st) name = Some tr ->
    exists t, tr = Some t /\ try_init E first_frame bbox name = Ok t
}.

Lemma init_template_fresh methods :
  fresh (init_template E first_frame bbox methods).
Proof.
  unfold init_template. destruct bbox as [[[x y] w] h].
  assert (Hget : forall (V : Type) (v v' : V) name,
    dict_get (dict_set [] "template" v) name = Some v' ->
    name = "template" /\ v' = v).
  { intros V v v' name.
    destruct (String.eqb_spec "template" name) as [<-|Hne].
    - rewrite dict_get_set_same. intros H; inversion H; auto.
    - rewrite dict_get_set_other by assumption. discriminate. }
  destruct (existsb (String.eqb "template") methods).
  - constructor; cbn [trackers lost survival use_template template total_frames].
    + constructor;
        cbn [trackers lost survival use_template template total_frames].
      * reflexivity.
      * reflexivity.
      * constructor; [intros [] | constructor].
      * intros _. split; [eauto | now left].
      * intros name Hn. now apply Hget in Hn.
    + reflexivity.
    + intros name n Hn. now apply Hget in Hn.
    + intros name b Hn. now apply Hget in Hn.
    + intros name tr Hne Hn. apply Hget in Hn. tauto.
  - constructor; simpl; try reflexivity; try discriminate.
    constructor; simpl; try reflexivity; try discriminate. constructor.
Qed.

Lemma init_template_keys methods :
  keys (trackers (init_template E first_frame bbox methods)) =
    (if existsb (String.eqb "template") methods then ["template"] else []) /\
  use_template (init_template E first_frame bbox methods) =
    existsb (String.eqb "template") methods.
Proof.
  unfold init_template. destruct bbox as [[[x y] w] h].
  destruct (existsb (String.eqb "template") methods); auto.
Qed.

(** One successful [try] body: lines 74-76. *)
Definition register st m (t : Tracker E) : session E :=
  set_survival E
    (set_lost E (set_trackers E st (dict_set (trackers st) m (Some t)))
       (dict_set (lost st) m false))
    (dict_set (survival st) m 0%nat).

Lemma register_fresh st m t :
  m <> "template" -> try_init E first_frame bbox m = Ok t ->
  fresh st -> fresh (register st m t).
Proof.
  intros Hne Hok [Hwf Htot Hsurv Hlost Hh]. destruct Hwf as [Kl Ks Hnd Htpl Hnone].
  constructor; simpl; try assumption.
  - constructor; simpl.
    + rewrite !keys_dict_set. congruence.
    + rewrite !keys_dict_set. congruence.
    + rewrite keys_dict_set. now apply add_key_NoDup.
    + intros Hu. destruct (Htpl Hu) as [Ht Hin]. split; [assumption|].
      rewrite keys_dict_set. apply add_key_in. now left.
    + intros name. destruct (String.eqb_spec m name) as [->|Hmn].
      * rewrite dict_get_set_same. discriminate.
      * rewrite dict_get_set_other by assumption. apply Hnone.
  - intros name n. destruct (String.eqb_spec m name) as [->|Hmn].
    + rewrite dict_get_set_same. congruence.
    + rewrite dict_get_set_other by assumption. apply Hsurv.
  - intros name b. destruct (String.eqb_spec m name) as [->|Hmn].
    + rewrite dict_get_set_same. congruence.
    + rewrite dict_get_set_other by assumption. apply Hlost.
  - intros name tr Hnt. destruct (String.eqb_spec m name) as [->|Hmn].
    + rewrite dict_get_set_same. intros H; inversion H; subst. eauto.
    + rewrite dict_get_set_other by assumption. now apply Hh.
Qed.

Lemma init_builtin_cons m methods st :
  init_builtin E first_frame bbox (m :: methods) st =
    let st1 := if m =? "template" then st
               else match try_init E first_frame bbox m with
                    | Ok t => register st m t
                    | Raise _ => st
                    end in
    (fst (init_builtin E first_frame bbox methods st1),
     init_message m ++ snd (init_builtin E first_frame bbox methods st1)).
Proof.
  simpl. unfold init_message.
  destruct (m =? "template").
  - simpl. now destruct (init_builtin E first_frame bbox methods st).
  - destruct (try_init E first_frame bbox m) as [t|e]; simpl.
    + fold (register st m t).
      now destruct (init_builtin E first_frame bbox methods (register st m t)).
    + now destruct (init_builtin E first_frame bbox methods st).
Qed.

Lemma init_builtin_events methods : forall st,
  snd (init_builtin E first_frame bbox methods st) = flat_map init_message methods.
Proof.
  induction methods as [|m methods IH]; intros st; [reflexivity|].
  rewrite init_builtin_cons. simpl. now rewrite IH.
Qed.

Lemma init_builtin_fresh methods : forall st,
  fresh st ->
  let st' := fst (init_builtin E first_frame bbox methods st) in
  fresh st' /\
  keys (trackers st') =
    fold_left add_key (filter builtin_ok methods) (keys (trackers st)) /\
  use_template st' = use_template st /\ template st' = template st.
Proof.
  induction methods as [|m methods IH]; intros st Hf; [simpl; auto|].
  rewrite init_builtin_cons. cbv zeta.
  simpl filter. unfold builtin_ok at 1, initializes.
  destruct (String.eqb_spec m "template") as [->|Hne]; simpl negb; simpl andb;
    cbn [fst].
  - apply IH. assumption.
  - destruct (try_init E first_frame bbox m) as [t|e] eqn:Hi; cbn [fst].
    + destruct (IH (register st m t)) as (Hf' & Hk & Hu & Ht).
      { now apply register_fresh. }
      split; [assumption|]. split; [|split; assumption].
      rewrite Hk. simpl. now rewrite keys_dict_set.
    + apply IH. assumption.
Qed.

Lemma init_session_fresh methods :
  let st0 := fst (init_session E first_frame bbox methods) in
  fresh st0 /\ keys (trackers st0) = init_order methods /\
  use_template st0 = existsb (String.eqb "template") methods.
Proof.
  unfold init_session.
  destruct (init_builtin_fresh methods _ (init_template_fresh methods))
    as (Hf & Hk & Hu & _).
  destruct (init_template_keys methods) as [Hk0 Hu0].
  split; [assumption|]. split.
  - rewrite Hk, Hk0. reflexivity.
  - now rewrite Hu.
Qed.
End InitFacts.

Lemma fold_add_key_in (l acc : list string) (x : string) :
  In x (fold_left add_key l acc) <-> In x acc \/ In x l.
Proof.
  revert acc. induction l as [|k l IH]; intros acc; simpl; [tauto|].
  rewrite IH, add_key_in. intuition congruence.
Qed.

Lemma fold_add_key_NoDup (l acc : list string) :
  NoDup acc -> NoDup (fold_left add_key l acc).
Proof.
  revert acc. induction l as [|k l IH]; intros acc Hnd; simpl; [assumption|].
  apply IH. now apply add_key_NoDup.
Qed.

(** More concrete sessions. *)
Module DemoRuns.
Import Demo.

Definition start (methods : list string) : session env :=
  fst (init_session env (conf 1) (roi (conf 1)) methods).

(** The template entry, lost on the third frame. *)
Definition template_lost : session env :=
  Build_session env
    [("template", None)]
    [("template", true)]
    [("template", 2%nat)]
    true (Some 1) 3.

Definition template_lost_next : session env :=
  Build_session env
    [("template", None)]
    [("template", true)]
    [("template", 2%nat)]
    true (Some 1) 4.

(** A session with the template and CSRT, one frame in. *)
Definition both_after_one : session env :=
  Build_session env
    [("template", None); ("csrt", Some "csrt")]
    [("template", false); ("csrt", false)]
    [("template", 1%nat); ("csrt", 1%nat)]
    true (Some 1) 1.

End DemoRuns.

(** * The claims *)

Section LoopClaims.
Variable E : cv2.
Implicit Types (st : session E) (name : string).

Lemma visits_lost st st' name :
  visits E st st' -> dict_get (lost st) name = Some true ->
  entry E st' name = entry E st name.
Proof.
  intros Hv Hl. induction Hv as [|s frame s' evs Hv IH Hstep]; [reflexivity|].
  rewrite <- IH.
  eapply process_frame_lost; eauto.
  unfold entry in IH. inversion IH. congruence.
Qed.

Lemma frame_loop_lost_events frames waitKey : forall st st' evs name,
  frame_loop E frames waitKey st = Some (st', evs) ->
  dict_get (lost st) name = Some true ->
  forall e, In e evs ->
    ~ is_update name e /\ (name = "template" -> ~ is_match e).
Proof.
  induction frames as [|frame frames IH]; intros st st' evs name H Hl e Hin.
  - inversion H; subst. destruct Hin as [<-|[]].
    split; [intros [n Hn]; discriminate|].
    intros _ (n & c & l & Hn). discriminate.
  - apply frame_loop_cons in H. destruct H as (st1 & ev1 & H1 & Hrest).
    destruct (process_frame_lost _ _ _ _ _ _ H1 Hl) as (He & Hu & Hm).
    assert (Hhead : ~ is_update name (Read true) /\
                    (name = "template" -> ~ is_match (Read true))).
    { split; [intros [n Hn]; discriminate|].
      intros _ (n & c & l & Hn). discriminate. }
    destruct Hrest as [(_ & -> & ->)|(_ & ev2 & H2 & ->)].
    + destruct Hin as [<-|Hin]; [assumption|]. split; auto.
    + destruct Hin as [<-|Hin]; [assumption|].
      apply in_app_or in Hin. destruct Hin as [Hin|Hin]; [split; auto|].
      eapply IH; eauto. unfold entry in He. inversion He. congruence.
Qed.

Lemma visits_survival_le first_frame bbox st0 st :
  fresh E first_frame bbox st0 -> visits E st0 st ->
  forall name n, dict_get (survival st) name = Some n ->
    (n <= total_frames st)%nat.
Proof.
  intros Hf Hv. induction Hv as [|s frame s' evs Hv IH Hstep]; intros name n Hn.
  - apply (fresh_survival _ _ _ _ Hf) in Hn. lia.
  - pose proof (visits_wf _ _ _ (fresh_wf _ _ _ _ Hf) Hv) as Hwf.
    destruct (process_frame_survival _ _ _ _ _ _ _ Hwf Hstep Hn) as (m & Hm & Hc).
    destruct (process_frame_total _ _ _ _ _ Hstep) as (Ht & _).
    apply IH in Hm. lia.
Qed.

(** The loop stops only when the stream ends or a quit key is read; the
    counter has then moved by the number of frames that were read. *)
Lemma frame_loop_total frames waitKey : forall st st' evs,
  frame_loop E frames waitKey st = Some (st', evs) ->
  exists k, total_frames st' = (total_frames st + k)%nat /\
    (k <= length frames)%nat /\
    (forall i, (1 <= i < k)%nat ->
       quit_key (waitKey (total_frames st + i)%nat) = false) /\
    ((k < length frames)%nat ->
       (0 < k)%nat /\ quit_key (waitKey (total_frames st + k)%nat) = true).
Proof.
  induction frames as [|frame frames IH]; intros st st' evs H.
  - inversion H; subst. exists 0%nat. simpl.
    split; [lia|]. split; [lia|]. split; intros; lia.
  - apply frame_loop_cons in H. destruct H as (st1 & ev1 & H1 & Hrest).
    destruct (process_frame_total _ _ _ _ _ H1) as (Ht & _).
    destruct Hrest as [(Hq & -> & _)|(Hq & ev2 & H2 & _)].
    + exists 1%nat. simpl. split; [lia|]. split; [lia|].
      split; [intros; lia|]. intros _. split; [lia|].
      rewrite <- Hq. f_equal. f_equal. lia.
    + destruct (IH _ _ _ H2) as (k & Hk & Hle & Hno & Hstop).
      exists (S k). simpl. split; [lia|]. split; [lia|]. split.
      * intros i Hi. destruct (Nat.eq_dec i 1) as [->|Hi1].
        { rewrite <- Hq. f_equal. f_equal. lia. }
        replace (total_frames st + i)%nat with (total_frames st1 + (i - 1))%nat
          by lia.
        apply Hno. lia.
      * intros Hlt. split; [lia|].
        replace (total_frames st + S k)%nat with (total_frames st1 + k)%nat
          by lia.
        apply Hstop. lia.
Qed.
End LoopClaims.

(** ** C1: loss is permanent *)

(** C1.  Once an entry's lost flag is true it stays true in every later
    session of the run, its survival count and its tracker object never
    change again, and the rest of the frame loop never calls its update
    (for the template entry: never runs the matcher) again. *)
Theorem lost_is_permanent (E : cv2) (st : session E) (name : string) :
  dict_get (lost st) name = Some true ->
  (forall st', visits E st st' ->
     dict_get (lost st') name = Some true /\
     dict_get (survival st') name = dict_get (survival st) name /\
     dict_get (trackers st') name = dict_get (trackers st) name) /\
  (forall frames waitKey st' evs,
     frame_loop E frames waitKey st = Some (st', evs) ->
     forall e, In e evs ->
       ~ is_update name e /\ (name = "template" -> ~ is_match e)).
Proof.
  intros Hl. split.
  - intros st' Hv. pose proof (visits_lost E st st' name Hv Hl) as He.
    unfold entry in He. inversion He as [[Ht Hl' Hs]]. rewrite Hl'. auto.
  - intros frames waitKey st' evs H. eapply frame_loop_lost_events; eauto.
Qed.

Lemma lost_is_permanent_witness :
  dict_get (lost DemoRuns.template_lost) "template" = Some true /\
  dict_get (lost DemoRuns.template_lost_next) "template" = Some true /\
  dict_get (survival DemoRuns.template_lost_next) "template" =
    dict_get (survival DemoRuns.template_lost) "template" /\
  dict_get (trackers DemoRuns.template_lost_next) "template" =
    dict_get (trackers DemoRuns.template_lost) "template".
Proof.
  split; [reflexivity|].
  apply (proj1 (lost_is_permanent Demo.env DemoRuns.template_lost "template"
                  eq_refl)).
  apply (visits_frame Demo.env _ DemoRuns.template_lost (Demo.conf 0.9)
           DemoRuns.template_lost_next [Show 4]).
  - apply visits_start.
  - reflexivity.
Defined.

(** ** C2: survival never exceeds the frame counter *)

(** C2.  In every session a run goes through, each entry's survival count
    is at most the total-frames counter; one more frame raises a survival
    count by at most one, and only for an entry whose lost flag is false. *)
Theorem survival_at_most_total (E : cv2) (first_frame : Frame E)
    (bbox : Z * Z * Z * Z) (methods : list string) (st : session E) :
  visits E (fst (init_session E first_frame bbox methods)) st ->
  (forall name n, dict_get (survival st) name = Some n ->
     (n <= total_frames st)%nat) /\
  (forall frame st' evs name n',
     process_frame E frame st = Some (st', evs) ->
     dict_get (survival st') name = Some n' ->
     exists n, dict_get (survival st) name = Some n /\
       (n' = n \/ (n' = S n /\ dict_get (lost st) name = Some false))).
Proof.
  intros Hv.
  destruct (init_session_fresh E first_frame bbox methods) as (Hf & _ & _).
  split.
  - eapply visits_survival_le; eauto.
  - intros frame st' evs name n' Hstep Hn'.
    eapply process_frame_survival; eauto.
    eapply visits_wf; [apply (fresh_wf _ _ _ _ Hf) | eassumption].
Qed.

Lemma survival_at_most_total_witness :
  visits Demo.env (DemoRuns.start ["template"; "csrt"]) DemoRuns.both_after_one /\
  dict_get (survival DemoRuns.both_after_one) "csrt" = Some 1%nat /\
  (1 <= total_frames DemoRuns.both_after_one)%nat.
Proof.
  assert (Hv : visits Demo.env (DemoRuns.start ["template"; "csrt"])
                 DemoRuns.both_after_one).
  { apply (visits_frame Demo.env _ (DemoRuns.start ["template"; "csrt"])
             (Demo.conf 1) DemoRuns.both_after_one
             [Match 1 1 (3, 4)%Z; Update "csrt" 1; Show 1]).
    - apply visits_start.
    - reflexivity. }
  split; [exact Hv|]. split; [reflexivity|].
  apply (proj1 (survival_at_most_total Demo.env (Demo.conf 1)
                  (Demo.roi (Demo.conf 1)) ["template"; "csrt"]
                  DemoRuns.both_after_one Hv) "csrt" 1%nat eq_refl).
Defined.

(** ** C7: the frame counter *)

(** C7.  In every session of a run, whatever the lost flags are, the next
    frame is processed and moves the total-frames counter by exactly one;
    the frame loop returns having counted [k] frames, where it stopped
    before the end of the stream only on a quit key and no earlier frame
    had a quit key. *)
Theorem total_counts_every_frame (E : cv2) (first_frame : Frame E)
    (bbox : Z * Z * Z * Z) (methods : list string) (st : session E) :
  visits E (fst (init_session E first_frame bbox methods)) st ->
  (forall frame, exists st' evs,
     process_frame E frame st = Some (st', evs) /\
     total_frames st' = S (total_frames st)) /\
  (forall frames waitKey, exists st' evs k,
     frame_loop E frames waitKey st = Some (st', evs) /\
     total_frames st' = (total_frames st + k)%nat /\
     (k <= length frames)%nat /\
     (forall i, (1 <= i < k)%nat ->
        quit_key (waitKey (total_frames st + i)%nat) = false) /\
     ((k < length frames)%nat ->
        (0 < k)%nat /\ quit_key (waitKey (total_frames st + k)%nat) = true)).
Proof.
  intros Hv.
  destruct (init_session_fresh E first_frame bbox methods) as (Hf & _ & _).
  assert (Hwf : wf E st).
  { eapply visits_wf; [apply (fresh_wf _ _ _ _ Hf) | eassumption]. }
  split.
  - intros frame.
    destruct (process_frame_progress E frame st Hwf) as (st' & evs & H).
    exists st', evs. split; [assumption|].
    apply (process_frame_total _ _ _ _ _ H).
  - intros frames waitKey.
    destruct (frame_loop_progress E frames waitKey st Hwf) as (st' & evs & H).
    destruct (frame_loop_total E frames waitKey st st' evs H) as (k & Hk).
    exists st', evs, k. split; assumption.
Qed.

Lemma total_counts_every_frame_witness :
  visits Demo.env (DemoRuns.start ["template"]) DemoRuns.template_lost /\
  exists st' evs,
    process_frame Demo.env (Demo.conf 0.9) DemoRuns.template_lost
      = Some (st', evs) /\
    total_frames st' = S (total_frames DemoRuns.template_lost).
Proof.
  assert (Hv : visits Demo.env (DemoRuns.start ["template"])
                 DemoRuns.template_lost).
  { apply (frame_loop_visits Demo.env
             [Demo.conf 0.9; Demo.conf 0.8; Demo.conf 0.4] Demo.no_key
             (DemoRuns.start ["template"]) DemoRuns.template_lost
             [Read true; Match 1 0.9 (3, 4)%Z; Show 1;
              Read true; Match 2 0.8 (3, 4)%Z; Show 2;
              Read true; Match 3 0.4 (3, 4)%Z; Show 3; Read false]).
    reflexivity. }
  split; [exact Hv|].
  apply (proj1 (total_counts_every_frame Demo.env (Demo.conf 1)
                  (Demo.roi (Demo.conf 1)) ["template"]
                  DemoRuns.template_lost Hv) (Demo.conf 0.9)).
Defined.

(** ** C3: the template entry *)

Lemma threshold_lt (c : Q) : Qle_bool threshold c = false <-> c < threshold.
Proof.
  split.
  - intros H. apply Qnot_le_lt. intros Hle.
    apply Qle_bool_iff in Hle. congruence.
  - intros H. destruct (Qle_bool threshold c) eqn:Hb; [|reflexivity].
    apply Qle_bool_iff in Hb. exfalso. exact (Qlt_not_le _ _ H Hb).
Qed.

Lemma process_frame_template (E : cv2) (frame : Frame E) (st st' : session E)
    (evs : list event) (tpl : Gray E) (n : nat) :
  process_frame E frame st = Some (st', evs) ->
  use_template st = true ->
  dict_get (lost st) "template" = Some false ->
  template st = Some tpl ->
  dict_get (survival st) "template" = Some n ->
  let c := fst (match_step E frame tpl) in
  In (Match (S (total_frames st)) c (snd (match_step E frame tpl))) evs /\
  dict_get (lost st') "template" = Some (negb (Qle_bool threshold c)) /\
  dict_get (survival st') "template" =
    Some (if Qle_bool threshold c then S n else n).
Proof.
  intros H Hu Hl Ht Hn c. apply process_frame_inv in H.
  destruct H as (st1 & ev1 & ev2 & H1 & H2 & -> & _).
  pose proof (builtin_loop_skips _ _ _ _ _ _ "template" H2 (or_intror eq_refl))
    as He.
  unfold entry in He. inversion He as [[Het Hel Hes]]. rewrite Hel, Hes.
  apply template_step_inv in H1. simpl in H1.
  destruct H1 as [[_ [_ [Hx|Hx]]]|(_ & _ & tpl' & Ht' & -> & Hc)];
    [congruence | congruence |].
  assert (tpl' = tpl) by congruence. subst tpl'. fold c in Hc |- *.
  split; [apply in_or_app; left; now left|].
  destruct Hc as [[Hq ->]|[Hq (m & Hm & ->)]]; simpl; rewrite Hq; simpl.
  - rewrite dict_get_set_same. auto.
  - rewrite dict_get_set_same. split; congruence.
Qed.

(** C3.  On a frame where the template entry is not yet lost, the matcher
    runs; a confidence below 0.5 marks the entry lost and leaves its survival
    count, any other confidence keeps it and adds one.  With confidences
    0.9, 0.8, 0.4, 0.9 the entry is still tracked after frame 2, is lost at
    frame 3 with a survival count of 2, and frame 4 runs no match. *)
Theorem template_loss_policy :
  (forall (E : cv2) (frame : Frame E) (st st' : session E) evs tpl n,
     use_template st = true ->
     dict_get (lost st) "template" = Some false ->
     template st = Some tpl ->
     dict_get (survival st) "template" = Some n ->
     process_frame E frame st = Some (st', evs) ->
     let c := fst (match_step E frame tpl) in
     In (Match (S (total_frames st)) c (snd (match_step E frame tpl))) evs /\
     (c < 0.5 ->
        dict_get (lost st') "template" = Some true /\
        dict_get (survival st') "template" = Some n) /\
     (~ c < 0.5 ->
        dict_get (lost st') "template" = Some false /\
        dict_get (survival st') "template" = Some (S n)))
  /\
  frame_loop Demo.env [Demo.conf 0.9; Demo.conf 0.8] Demo.no_key
    (DemoRuns.start ["template"])
  = Some (Build_session Demo.env [("template", None)] [("template", false)]
            [("template", 2%nat)] true (Some 1) 2,
          [Read true; Match 1 0.9 (3, 4)%Z; Show 1;
           Read true; Match 2 0.8 (3, 4)%Z; Show 2; Read false])
  /\
  Demo.run [Demo.conf 1; Demo.conf 0.9; Demo.conf 0.8; Demo.conf 0.4;
            Demo.conf 0.9] ["template"]
  = Some (Read true :: roi_prompt ++
          [Read true; Match 1 0.9 (3, 4)%Z; Show 1;
           Read true; Match 2 0.8 (3, 4)%Z; Show 2;
           Read true; Match 3 0.4 (3, 4)%Z; Show 3;
           Read true; Show 4;
           Read false;
           Print (newline ++ "=== Tracking survival summary ===");
           Print "Total frames processed: 4";
           Print "template : survived 2 / 4 frames"],
          Some (Build_session Demo.env [("template", None)]
                  [("template", true)] [("template", 2%nat)] true (Some 1) 4)).
Proof.
  split; [|split; reflexivity].
  intros E frame st st' evs tpl n Hu Hl Ht Hn H c.
  destruct (process_frame_template E frame st st' evs tpl n H Hu Hl Ht Hn)
    as (Hin & Hl' & Hs').
  fold c in Hin, Hl', Hs'. split; [assumption|]. split.
  - intros Hc. apply threshold_lt in Hc. rewrite Hl', Hs', Hc. auto.
  - intros Hc. destruct (Qle_bool threshold c) eqn:Hb.
    + rewrite Hl', Hs'. auto.
    + exfalso. apply Hc. now apply threshold_lt.
Qed.

Lemma template_loss_policy_witness :
  dict_get (lost (DemoRuns.start ["template"])) "template" = Some false /\
  0.4 < 0.5 /\
  dict_get [("template", true)] "template" = Some true /\
  dict_get [("template", 0%nat)] "template" = Some 0%nat.
Proof.
  split; [reflexivity|].
  assert (Hlow : 0.4 < 0.5) by reflexivity.
  split; [exact Hlow|].
  destruct (proj1 template_loss_policy Demo.env (Demo.conf 0.4)
              (DemoRuns.start ["template"])
              (Build_session Demo.env [("template", None)]
                 [("template", true)] [("template", 0%nat)] true (Some 1) 1)
              [Match 1 0.4 (3, 4)%Z; Show 1] 1 0%nat
              eq_refl eq_refl eq_refl eq_refl eq_refl) as (_ & Hlost & _).
  exact (Hlost Hlow).
Defined.

(** ** C9: the match step *)

Lemma match_step_gray (E : cv2) (f1 f2 : Frame E) (tpl : Gray E) :
  cvtColor E f1 = cvtColor E f2 -> match_step E f1 tpl = match_step E f2 tpl.
Proof. intros H. unfold match_step. now rewrite H. Qed.

(** Whatever a frame logs as a match is [match_step] of that frame and of
    the session's template. *)
Lemma process_frame_match (E : cv2) (frame : Frame E) (st st' : session E)
    (evs : list event) (n : nat) (c : Q) (l : Z * Z) :
  process_frame E frame st = Some (st', evs) -> In (Match n c l) evs ->
  exists tpl, template st = Some tpl /\ (c, l) = match_step E frame tpl.
Proof.
  intros H Hin. apply process_frame_inv in H.
  destruct H as (st1 & ev1 & ev2 & H1 & H2 & -> & _).
  apply in_app_or in Hin. destruct Hin as [Hin|Hin].
  - apply template_step_inv in H1. simpl in H1.
    destruct H1 as [[_ [-> _]]|(_ & _ & tpl & Ht & -> & _)]; [destruct Hin|].
    destruct Hin as [Heq|[]]. inversion Heq; subst.
    exists tpl. split; [assumption|].
    now destruct (match_step E frame tpl).
  - apply in_app_or in Hin. destruct Hin as [Hin|[Hin|[]]]; [|discriminate].
    destruct (builtin_loop_events _ _ _ _ _ _ _ H2 Hin) as (nm & Hnm & _).
    discriminate.
Qed.

(** C9.  Two frames with the same grayscale image, processed in two sessions
    that hold the same template (and may differ in everything else: the
    counters, the lost flags, the other trackers), give the same confidence
    and the same best-match location; processing a frame leaves the
    template as it was. *)
Theorem template_match_deterministic (E : cv2) (s1 s2 s1' s2' : session E)
    (f1 f2 : Frame E) (tpl : Gray E) (ev1 ev2 : list event)
    (n1 n2 : nat) (c1 c2 : Q) (l1 l2 : Z * Z) :
  cvtColor E f1 = cvtColor E f2 ->
  template s1 = Some tpl -> template s2 = Some tpl ->
  process_frame E f1 s1 = Some (s1', ev1) ->
  process_frame E f2 s2 = Some (s2', ev2) ->
  In (Match n1 c1 l1) ev1 -> In (Match n2 c2 l2) ev2 ->
  c1 = c2 /\ l1 = l2 /\ template s1' = Some tpl /\ template s2' = Some tpl.
Proof.
  intros Hg Ht1 Ht2 H1 H2 Hin1 Hin2.
  destruct (process_frame_match E f1 s1 s1' ev1 n1 c1 l1 H1 Hin1)
    as (t1 & Ht1' & Hm1).
  destruct (process_frame_match E f2 s2 s2' ev2 n2 c2 l2 H2 Hin2)
    as (t2 & Ht2' & Hm2).
  assert (t1 = tpl) by congruence. assert (t2 = tpl) by congruence. subst.
  rewrite (match_step_gray E f1 f2 tpl Hg) in Hm1.
  destruct (process_frame_total _ _ _ _ _ H1) as (_ & _ & Hk1).
  destruct (process_frame_total _ _ _ _ _ H2) as (_ & _ & Hk2).
  assert (Heq : (c1, l1) = (c2, l2)) by congruence.
  inversion Heq; subst. repeat split; congruence.
Qed.

Lemma template_match_deterministic_witness :
  In (Match 1 0.8 (3, 4)%Z) [Match 1 0.8 (3, 4)%Z; Show 1] /\
  In (Match 2 0.8 (3, 4)%Z) [Match 2 0.8 (3, 4)%Z; Update "csrt" 2; Show 2] /\
  (0.8 = 0.8 /\ (3, 4)%Z = (3, 4)%Z /\
   template (Build_session Demo.env [("template", None)]
               [("template", false)] [("template", 1%nat)] true (Some 1) 1)
     = Some 1 /\
   template (Build_session Demo.env
               [("template", None); ("csrt", Some "csrt")]
               [("template", false); ("csrt", true)]
               [("template", 2%nat); ("csrt", 1%nat)] true (Some 1) 2)
     = Some 1).
Proof.
  split; [now left|]. split; [now left|].
  apply (template_match_deterministic Demo.env
           (DemoRuns.start ["template"]) DemoRuns.both_after_one
           _ _ (Demo.conf 0.8) (0.8, (false, (0, 0, 0, 0))) 1
           [Match 1 0.8 (3, 4)%Z; Show 1]
           [Match 2 0.8 (3, 4)%Z; Update "csrt" 2; Show 2]
           1%nat 2%nat 0.8 0.8 (3, 4)%Z (3, 4)%Z
           eq_refl eq_refl eq_refl eq_refl eq_refl
           (or_introl eq_refl) (or_introl eq_refl)).
Defined.

(** ** C4: the built-in entries *)

Lemma dict_get_item {V : Type} (d : dict V) (k : string) (v : V) :
  dict_get d k = Some v -> In (k, v) d.
Proof.
  induction d as [|[k0 v0] d IH]; simpl; [discriminate|].
  destruct (String.eqb_spec k0 k) as [->|Hne].
  - intros H; inversion H; subst. now left.
  - intros H. right. auto.
Qed.

Lemma process_frame_builtin (E : cv2) (frame : Frame E) (st st' : session E)
    (evs : list event) (name : string) (t : Tracker E) (n : nat) :
  wf E st -> name <> "template" ->
  dict_get (trackers st) name = Some (Some t) ->
  dict_get (lost st) name = Some false ->
  dict_get (survival st) name = Some n ->
  process_frame E frame st = Some (st', evs) ->
  let '(t', (ok, (_, _, bw, bh))) := tracker_update E t frame in
  In (Update name (S (total_frames st))) evs /\
  entry E st' name =
    (Some (Some t'),
     Some (negb ok || ((int bw <=? 0)%Z || (int bh <=? 0)%Z)),
     Some (if negb ok || ((int bw <=? 0)%Z || (int bh <=? 0)%Z)
           then n else S n)).
Proof.
  intros Hwf Hne Ht Hl Hn H. apply process_frame_inv in H.
  destruct H as (st1 & ev1 & ev2 & H1 & H2 & -> & Htot).
  pose proof (template_step_other _ _ _ _ _ name H1 Hne) as He.
  unfold entry in He. simpl in He. inversion He as [[Het Hel Hes]].
  pose proof (builtin_loop_entry E frame (trackers st) st1 st' ev2 name t n
                (wf_nodup E st Hwf) (dict_get_item _ _ _ Ht) Hne) as Hloop.
  rewrite Hel, Hes, Htot in Hloop. specialize (Hloop Hl Hn H2).
  destruct (tracker_update E t frame) as [t' [ok [[[bx by_] bw] bh]]].
  destruct Hloop as [Hin Hent]. split; [|assumption].
  apply in_or_app. right. apply in_or_app. now left.
Qed.

(** The built-in policy in the words of the specification: the region's own
    width and height are compared with zero. *)
Definition builtin_policy_as_stated (E : cv2) (frame : Frame E)
    (st : session E) (name : string) : Prop :=
  forall t n st' evs,
    name <> "template" ->
    dict_get (trackers st) name = Some (Some t) ->
    dict_get (lost st) name = Some false ->
    dict_get (survival st) name = Some n ->
    process_frame E frame st = Some (st', evs) ->
    let '(_, (ok, (_, _, w, h))) := tracker_update E t frame in
    ((ok = false \/ w <= 0 \/ h <= 0) ->
       dict_get (lost st') name = Some true /\
       dict_get (survival st') name = Some n) /\
    (~ (ok = false \/ w <= 0 \/ h <= 0) ->
       dict_get (survival st') name = Some (S n)).

(** C4, as stated, fails: a successful update with the region
    (10, 10, 0.5, 5), whose width and height are both positive, marks the
    entry lost and does not count the frame. *)
Lemma builtin_policy_as_stated_fails :
  ~ builtin_policy_as_stated Demo.env (Demo.box (true, (10, 10, 0.5, 5)))
      (DemoRuns.start ["csrt"]) "csrt".
Proof.
  intros H.
  specialize (H "csrt" 0%nat
    (Build_session Demo.env [("csrt", Some "csrt")] [("csrt", true)]
       [("csrt", 0%nat)] false None 1)
    [Update "csrt" 1; Show 1]).
  simpl in H.
  destruct H as [_ H]; try reflexivity; try discriminate.
  assert (Hpos : ~ (true = false \/ 0.5 <= 0 \/ 5 <= 0)).
  { intros [Hx|[Hx|Hx]]; [discriminate| |]; unfold Qle in Hx; simpl in Hx; lia. }
  specialize (H Hpos). discriminate.
Qed.

(** C4 (amended).  On a frame where a built-in entry is not yet lost, its
    update is called once; if it reports failure, or a region whose width
    or height truncated to an integer is not positive, the entry is marked
    lost and its survival count stays; otherwise the entry is kept and its
    survival count grows by one. *)
Theorem builtin_loss_policy (E : cv2) (first_frame : Frame E)
    (bbox : Z * Z * Z * Z) (methods : list string) (frame : Frame E)
    (st st' : session E) (evs : list event) (name : string) (t : Tracker E) :
  visits E (fst (init_session E first_frame bbox methods)) st ->
  name <> "template" ->
  dict_get (trackers st) name = Some (Some t) ->
  dict_get (lost st) name = Some false ->
  process_frame E frame st = Some (st', evs) ->
  exists n, dict_get (survival st) name = Some n /\
    let '(t', (ok, (_, _, w, h))) := tracker_update E t frame in
    In (Update name (S (total_frames st))) evs /\
    dict_get (trackers st') name = Some (Some t') /\
    ((ok = false \/ (int w <= 0)%Z \/ (int h <= 0)%Z) ->
       dict_get (lost st') name = Some true /\
       dict_get (survival st') name = Some n) /\
    ((ok = true /\ (0 < int w)%Z /\ (0 < int h)%Z) ->
       dict_get (lost st') name = Some false /\
       dict_get (survival st') name = Some (S n)).
Proof.
  intros Hv Hne Ht Hl H.
  destruct (init_session_fresh E first_frame bbox methods) as (Hf & _ & _).
  assert (Hwf : wf E st).
  { eapply visits_wf; [apply (fresh_wf _ _ _ _ Hf) | eassumption]. }
  assert (Hin : In name (keys (survival st))).
  { rewrite (wf_survival E st Hwf), <- (wf_lost E st Hwf).
    eapply dict_get_in; eauto. }
  destruct (in_keys_get _ _ Hin) as [n Hn]. exists n. split; [assumption|].
  pose proof (process_frame_builtin E frame st st' evs name t n
                Hwf Hne Ht Hl Hn H) as Hstep.
  destruct (tracker_update E t frame) as [t' [ok [[[bx by_] w] h]]].
  destruct Hstep as [Hev Hent]. unfold entry in Hent.
  injection Hent as Het Hel Hes.
  split; [assumption|]. split; [assumption|]. rewrite Hel, Hes. split.
  - intros Hbad.
    assert (Hb : negb ok || ((int w <=? 0)%Z || (int h <=? 0)%Z) = true).
    { destruct Hbad as [->|[Hw|Hh]]; [reflexivity| |].
      - apply Z.leb_le in Hw. rewrite Hw. now destruct ok.
      - apply Z.leb_le in Hh. rewrite Hh. destruct ok; simpl;
          now rewrite ?orb_true_r. }
    rewrite Hb. auto.
  - intros (-> & Hw & Hh).
    assert (Hb : negb true || ((int w <=? 0)%Z || (int h <=? 0)%Z) = false).
    { simpl. apply orb_false_iff. split; apply Z.leb_gt; assumption. }
    rewrite Hb. auto.
Qed.

(** The scenario of C4: [(ok=True, bbox=(10,10,0,5))]. *)
Lemma builtin_loss_policy_witness :
  visits Demo.env (DemoRuns.start ["csrt"]) (DemoRuns.start ["csrt"]) /\
  exists n, dict_get (survival (DemoRuns.start ["csrt"])) "csrt" = Some n /\
    In (Update "csrt" 1) [Update "csrt" 1; Show 1] /\
    Some (Some "csrt") = Some (Some "csrt") /\
    ((true = false \/ (int 0 <= 0)%Z \/ (int 5 <= 0)%Z) ->
       dict_get [("csrt", true)] "csrt" = Some true /\
       dict_get [("csrt", 0%nat)] "csrt" = Some n) /\
    ((true = true /\ (0 < int 0)%Z /\ (0 < int 5)%Z) ->
       dict_get [("csrt", true)] "csrt" = Some false /\
       dict_get [("csrt", 0%nat)] "csrt" = Some (S n)).
Proof.
  split; [apply visits_start|].
  apply (builtin_loss_policy Demo.env (Demo.conf 1) (Demo.roi (Demo.conf 1))
           ["csrt"] (Demo.box (true, (10, 10, 0, 5)))
           (DemoRuns.start ["csrt"])
           (Build_session Demo.env [("csrt", Some "csrt")] [("csrt", true)]
              [("csrt", 0%nat)] false None 1)
           [Update "csrt" 1; Show 1] "csrt" "csrt"
           (visits_start Demo.env _)).
  - discriminate.
  - reflexivity.
  - reflexivity.
  - reflexivity.
Defined.

(** ** Whole runs *)

Section RunFacts.
Variable E : cv2.
Implicit Types (st : session E) (name m : string) (methods : list string).

Lemma visits_keys st0 st : wf E st0 -> visits E st0 st -> same_keys E st0 st.
Proof.
  intros Hwf Hv. induction Hv as [|s frame s' evs Hv IH Hstep].
  - repeat split.
  - pose proof (visits_wf _ _ _ Hwf Hv) as Hwfs.
    destruct (process_frame_keys _ _ _ _ _ Hwfs Hstep) as (Kt & Kl & Ks).
    destruct IH as (Kt' & Kl' & Ks'). unfold same_keys. intuition congruence.
Qed.

(** Only a tracker of the session is ever updated. *)
Lemma frame_loop_updates frames waitKey : forall st st' evs e name,
  wf E st -> frame_loop E frames waitKey st = Some (st', evs) ->
  In e evs -> is_update name e -> In name (keys (trackers st)).
Proof.
  induction frames as [|frame frames IH]; intros st st' evs e name Hwf H Hin Hu.
  - inversion H; subst. destruct Hin as [<-|[]]. destruct Hu; discriminate.
  - apply frame_loop_cons in H. destruct H as (st1 & ev1 & H1 & Hrest).
    assert (Hev1 : In e ev1 -> In name (keys (trackers st))).
    { intros Hin1. apply process_frame_inv in H1.
      destruct H1 as (s1 & e1 & e2 & Ht & Hb & -> & _).
      destruct Hu as [n ->].
      apply in_app_or in Hin1. destruct Hin1 as [Hin1|Hin1].
      - apply template_step_inv in Ht.
        destruct Ht as [[_ [-> _]]|(_ & _ & tpl & _ & -> & _)];
          [destruct Hin1|destruct Hin1 as [Hx|[]]; discriminate].
      - apply in_app_or in Hin1. destruct Hin1 as [Hin1|[Hx|[]]];
          [|discriminate].
        destruct (builtin_loop_events _ _ _ _ _ _ _ Hb Hin1)
          as (nm & Hnm & _ & Hk & _).
        inversion Hnm; subst. exact Hk. }
    destruct Hrest as [(_ & _ & ->)|(_ & ev2 & H2 & ->)].
    + destruct Hin as [<-|Hin]; [destruct Hu; discriminate | auto].
    + destruct Hin as [<-|Hin]; [destruct Hu; discriminate|].
      apply in_app_or in Hin. destruct Hin as [Hin|Hin]; [auto|].
      destruct (process_frame_keys _ _ _ _ _ Hwf H1) as (Kt & _).
      rewrite <- Kt. eapply IH; eauto. eapply process_frame_wf; eauto.
Qed.

Variable first_frame : Frame E.
Variable bbox : Z * Z * Z * Z.

Lemma init_order_in methods name :
  In name (init_order E first_frame bbox methods) <->
  In name methods /\
  (name = "template" \/ initializes E first_frame bbox name = true).
Proof.
  unfold init_order. rewrite fold_add_key_in, filter_In.
  unfold builtin_ok.
  destruct (existsb (String.eqb "template") methods) eqn:Hex.
  - apply existsb_eqb_in in Hex. split.
    + intros [[<-|[]]|[Hin Hb]]; [auto|].
      apply andb_true_iff in Hb. tauto.
    + intros [Hin [->|Hi]]; [left; now left|].
      destruct (String.eqb_spec name "template") as [->|Hne];
        [left; now left|right].
      rewrite Hi. auto.
  - split.
    + intros [[]|[Hin Hb]]. apply andb_true_iff in Hb. tauto.
    + intros [Hin [->|Hi]].
      * apply existsb_eqb_in in Hin. congruence.
      * right. split; [assumption|]. rewrite Hi.
        destruct (String.eqb_spec name "template") as [->|Hne]; [|reflexivity].
        apply existsb_eqb_in in Hin. congruence.
Qed.

Lemma init_order_NoDup methods : NoDup (init_order E first_frame bbox methods).
Proof.
  unfold init_order. apply fold_add_key_NoDup.
  destruct (existsb (String.eqb "template") methods); repeat constructor.
  intros [].
Qed.

Lemma init_message_print methods e :
  In e (flat_map (init_message E first_frame bbox) methods) ->
  exists s, e = Print s.
Proof.
  intros Hin. apply in_flat_map in Hin. destruct Hin as (m & _ & Hin).
  unfold init_message in Hin. destruct (m =? "template"); [destruct Hin|].
  destruct (try_init E first_frame bbox m); destruct Hin as [<-|[]]; eauto.
Qed.

(** The session of a run, once the frame loop has been entered, has the
    keys of [init_order], in that order, in each of its three dicts. *)
Lemma session_keys methods st :
  visits E (fst (init_session E first_frame bbox methods)) st ->
  wf E st /\
  keys (trackers st) = init_order E first_frame bbox methods /\
  keys (lost st) = init_order E first_frame bbox methods /\
  keys (survival st) = init_order E first_frame bbox methods.
Proof.
  intros Hv.
  destruct (init_session_fresh E first_frame bbox methods) as (Hf & Hk & _).
  pose proof (fresh_wf _ _ _ _ Hf) as Hwf0.
  pose proof (visits_wf _ _ _ Hwf0 Hv) as Hwf.
  destruct (visits_keys _ _ Hwf0 Hv) as (Kt & _).
  split; [assumption|].
  rewrite (wf_lost E st Hwf), (wf_survival E st Hwf), Kt, Hk. auto.
Qed.
End RunFacts.

Section RunTracking.
Variable E : cv2.
Variable first_frame : Frame E.
Variable frames : list (Frame E).
Variable selectROI : Frame E -> Z * Z * Z * Z.
Variable waitKey : nat -> Z.
Variable video_path : string.
Variable methods : list string.

Let bbox := selectROI first_frame.
Let st0 := fst (init_session E first_frame bbox methods).
Let ev0 := flat_map (init_message E first_frame bbox) methods.

Definition roi_selected : Prop :=
  let '(_, _, w, h) := selectROI first_frame in (w <> 0)%Z /\ (h <> 0)%Z.

(** Past the three early returns, [run_tracking] is the initialization,
    then either the fourth early return or the loop and the summary. *)
Lemma run_tracking_body :
  roi_selected ->
  run_tracking E true (first_frame :: frames) selectROI waitKey video_path
    methods =
  match trackers st0 with
  | [] => Some (Read true :: roi_prompt ++ ev0 ++
                [Print "[ERROR] No valid trackers initialized. Exiting."],
                None)
  | _ :: _ =>
      '(st, ev) <- frame_loop E frames waitKey st0 ;;
      Some (Read true :: roi_prompt ++ ev0 ++ ev ++ summary E st, Some st)
  end.
Proof.
  unfold roi_selected, run_tracking, st0, ev0, bbox. simpl negb. cbv iota.
  destruct (selectROI first_frame) as [[[x y] w] h]. intros [Hw Hh].
  apply Z.eqb_neq in Hw. apply Z.eqb_neq in Hh. rewrite Hw, Hh. simpl orb.
  cbv iota.
  rewrite <- (init_builtin_events E first_frame (x, y, w, h) methods
                (init_template E first_frame (x, y, w, h) methods)).
  unfold init_session.
  destruct (init_builtin E first_frame (x, y, w, h) methods
              (init_template E first_frame (x, y, w, h) methods))
    as [s e]. reflexivity.
Qed.
End RunTracking.

(** ** C6: no valid trackers *)

Definition no_trackers_error : event :=
  Print "[ERROR] No valid trackers initialized. Exiting.".

Definition is_warning (e : event) : Prop :=
  exists m msg, e = Print ("[WARN] Could not create tracker '" ++ m ++ "': " ++ msg).

(** C6.  When the video opens, a region is selected and every requested
    method fails to initialize, the run ends without a session: after the
    read of the first frame it only prompts for the region, prints one
    warning per requested method and then the error; nothing is read,
    matched, updated or shown after the first frame, and no summary line is
    printed. *)
Theorem all_methods_fail_aborts (E : cv2) (first_frame : Frame E)
    (frames : list (Frame E)) (selectROI : Frame E -> Z * Z * Z * Z)
    (waitKey : nat -> Z) (video_path : string) (methods : list string) :
  roi_selected E first_frame selectROI ->
  (forall m, In m methods ->
     m <> "template" /\
     exists msg, try_init E first_frame (selectROI first_frame) m = Raise msg) ->
  exists warnings,
    run_tracking E true (first_frame :: frames) selectROI waitKey video_path
      methods
    = Some (Read true :: roi_prompt ++ warnings ++ [no_trackers_error], None) /\
    length warnings = length methods /\
    Forall is_warning warnings /\
    (forall e, In e (roi_prompt ++ warnings ++ [no_trackers_error]) ->
       (e = SelectROI \/ exists s, e = Print s) /\
       e <> Print (newline ++ "=== Tracking survival summary ===") /\
       forall n, e <> Print ("Total frames processed: " ++ str n)).
Proof.
  intros Hroi Hfail.
  set (bbox := selectROI first_frame) in *.
  set (warnings := flat_map (init_message E first_frame bbox) methods).
  assert (Hmsg : forall m, In m methods ->
            exists msg, init_message E first_frame bbox m =
              [Print ("[WARN] Could not create tracker '" ++ m ++ "': " ++ msg)]).
  { intros m Hin. destruct (Hfail m Hin) as [Hne [msg Hr]].
    exists msg. unfold init_message.
    apply String.eqb_neq in Hne. rewrite Hne, Hr. reflexivity. }
  assert (Hwarn : Forall is_warning warnings /\ length warnings = length methods).
  { unfold warnings. clear Hfail.
    induction methods as [|m ms IH]; simpl; [split; [constructor|reflexivity]|].
    destruct (Hmsg m (or_introl eq_refl)) as [msg Hm]. rewrite Hm.
    destruct IH as [IH1 IH2]; [intros; apply Hmsg; now right|].
    simpl. split; [|now rewrite IH2].
    constructor; [|assumption]. exists m, msg. reflexivity. }
  destruct Hwarn as [Hall Hlen].
  assert (Hempty : trackers (fst (init_session E first_frame bbox methods)) = []).
  { destruct (init_session_fresh E first_frame bbox methods) as (_ & Hk & _).
    destruct (trackers (fst (init_session E first_frame bbox methods)))
      as [|[k v] d] eqn:Hd; [reflexivity|].
    exfalso. assert (Hin : In k (init_order E first_frame bbox methods)).
    { rewrite <- Hk. now left. }
    apply init_order_in in Hin. destruct Hin as [Hin Hok].
    destruct (Hfail k Hin) as [Hne [msg Hr]].
    destruct Hok as [->|Hi]; [congruence|].
    unfold initializes in Hi. rewrite Hr in Hi. discriminate. }
  exists warnings. split.
  - rewrite run_tracking_body by assumption. fold bbox. now rewrite Hempty.
  - split; [assumption|]. split; [assumption|].
    intros e Hin.
    assert (Hcases : In e roi_prompt \/ is_warning e \/ e = no_trackers_error).
    { apply in_app_or in Hin. destruct Hin as [Hin|Hin]; [now left|].
      apply in_app_or in Hin. destruct Hin as [Hin|[<-|[]]]; [|auto].
      right. left. rewrite Forall_forall in Hall. auto. }
    destruct Hcases as [Hp|[(m & msg & ->)| ->]].
    + simpl in Hp. destruct Hp as [<-|[<-|[<-|[<-|[]]]]];
        (split; [eauto|split; [discriminate|intros n; discriminate]]).
    + split; [eauto|split; [discriminate|intros n; discriminate]].
    + split; [right; eexists; reflexivity|].
      split; [discriminate|intros n; discriminate].
Qed.

Lemma all_methods_fail_aborts_witness :
  roi_selected Demo.env (Demo.conf 1) Demo.roi /\
  exists warnings,
    Demo.run [Demo.conf 1; Demo.conf 0.9] ["mosse"; "MOSSE"; "goturn"]
    = Some (Read true :: roi_prompt ++ warnings ++ [no_trackers_error], None) /\
    length warnings = 3%nat.
Proof.
  assert (Hroi : roi_selected Demo.env (Demo.conf 1) Demo.roi).
  { split; discriminate. }
  split; [exact Hroi|].
  destruct (all_methods_fail_aborts Demo.env (Demo.conf 1) [Demo.conf 0.9]
              Demo.roi Demo.no_key "video.mp4" ["mosse"; "MOSSE"; "goturn"] Hroi)
    as (warnings & Hrun & Hlen & _).
  - intros m [<-|[<-|[<-|[]]]]; (split; [discriminate | eexists; reflexivity]).
  - exists warnings. split; assumption.
Defined.

(** ** C5: a method that fails to initialize *)

Lemma summary_print (E : cv2) (st : session E) (e : event) :
  In e (summary E st) -> exists s, e = Print s.
Proof.
  unfold summary. intros [<-|[<-|Hin]]; eauto.
  apply in_map_iff in Hin. destruct Hin as (entry & <- & _). eauto.
Qed.

(** C5.  A requested built-in method whose construction or first-frame
    initialization raises gets its warning printed and no entry: none of the
    three dicts ever holds its name, its update is never called, and the
    summary, which has one line per key of [survival], has none for it.
    Every other requested method that initializes, and the template method
    whenever it is requested, has its entry. *)
Theorem failed_method_is_excluded (E : cv2) (first_frame : Frame E)
    (frames : list (Frame E)) (selectROI : Frame E -> Z * Z * Z * Z)
    (waitKey : nat -> Z) (video_path : string) (methods : list string)
    (m msg : string) (tr : list event) (fin : option (session E)) :
  roi_selected E first_frame selectROI ->
  In m methods -> m <> "template" ->
  try_init E first_frame (selectROI first_frame) m = Raise msg ->
  run_tracking E true (first_frame :: frames) selectROI waitKey video_path
    methods = Some (tr, fin) ->
  In (Print ("[WARN] Could not create tracker '" ++ m ++ "': " ++ msg)) tr /\
  (forall e, In e tr -> ~ is_update m e) /\
  (forall st, fin = Some st ->
     entry E st m = (None, None, None) /\
     (exists pre, tr = pre ++ summary E st) /\
     ~ In m (keys (survival st)) /\
     (forall m', In m' methods ->
        m' = "template" \/
        (exists t, try_init E first_frame (selectROI first_frame) m' = Ok t) ->
        In m' (keys (survival st)))).
Proof.
  intros Hroi Hin Hne Hr Hrun.
  rewrite run_tracking_body in Hrun by assumption.
  set (bbox := selectROI first_frame) in *.
  set (st0 := fst (init_session E first_frame bbox methods)) in *.
  set (ev0 := flat_map (init_message E first_frame bbox) methods) in *.
  assert (Hwarn : In (Print ("[WARN] Could not create tracker '" ++ m ++ "': "
                             ++ msg)) ev0).
  { unfold ev0. apply in_flat_map. exists m. split; [assumption|].
    unfold init_message. apply String.eqb_neq in Hne. rewrite Hne, Hr.
    now left. }
  assert (Hout : ~ In m (init_order E first_frame bbox methods)).
  { intros Hx. apply init_order_in in Hx. destruct Hx as [_ [Hx|Hx]];
      [contradiction|].
    unfold initializes in Hx. rewrite Hr in Hx. discriminate. }
  assert (Hnu : forall e, In e (roi_prompt ++ ev0) -> ~ is_update m e).
  { intros e Hx [n ->]. apply in_app_or in Hx. destruct Hx as [Hx|Hx].
    - simpl in Hx. repeat (destruct Hx as [Hx|Hx]; [discriminate|]).
      destruct Hx.
    - apply init_message_print in Hx. destruct Hx; discriminate. }
  destruct (trackers st0) as [|kv d] eqn:Hd.
  - assert (Htr : tr = Read true :: roi_prompt ++ ev0 ++
                       [Print "[ERROR] No valid trackers initialized. Exiting."])
      by congruence.
    assert (Hfin : fin = None) by congruence. subst tr fin. split.
    + apply in_cons. apply in_or_app. right. apply in_or_app. now left.
    + split; [|discriminate].
      intros e [<-|Hx]; [intros [n Hn]; discriminate|].
      rewrite app_assoc in Hx. apply in_app_or in Hx.
      destruct Hx as [Hx|[<-|[]]]; [auto|]. intros [n Hn]; discriminate.
  - destruct (frame_loop E frames waitKey st0) as [[st ev]|] eqn:Hloop;
      cbn [bind] in Hrun; [|discriminate].
    assert (Htr : tr = Read true :: roi_prompt ++ ev0 ++ ev ++ summary E st)
      by congruence.
    assert (Hfin : fin = Some st) by congruence. subst tr fin. clear Hrun.
    pose proof (frame_loop_visits E frames waitKey st0 st ev Hloop) as Hv.
    destruct (session_keys E first_frame bbox methods st Hv)
      as (Hwf & Kt & Kl & Ks).
    destruct (session_keys E first_frame bbox methods st0 (visits_start E st0))
      as (Hwf0 & Kt0 & _).
    split.
    { apply in_cons. apply in_or_app. right. apply in_or_app. now left. }
    split.
    { intros e [<-|Hx]; [intros [n Hn]; discriminate|].
      rewrite app_assoc in Hx. apply in_app_or in Hx.
      destruct Hx as [Hx|Hx]; [auto|].
      apply in_app_or in Hx. destruct Hx as [Hx|Hx].
      - intros Hu. apply Hout. rewrite <- Kt0.
        eapply frame_loop_updates; eauto.
      - apply summary_print in Hx. destruct Hx as [s ->].
        intros [n Hn]; discriminate. }
    intros st' Hst. inversion Hst; subst st'. split.
    { unfold entry. f_equal; [f_equal|]; apply dict_get_none; congruence. }
    split.
    { exists (Read true :: roi_prompt ++ ev0 ++ ev).
      simpl. f_equal. now rewrite <- !app_assoc. }
    split; [congruence|].
    intros m' Hin' Hok. rewrite Ks. apply init_order_in.
    split; [assumption|].
    destruct Hok as [->|[t Ht]]; [now left|right].
    unfold initializes. fold bbox in Ht. now rewrite Ht.
Qed.

Lemma failed_method_is_excluded_witness :
  roi_selected Demo.env (Demo.conf 1) Demo.roi /\
  In "mosse" ["csrt"; "mosse"; "template"] /\
  In (Print ("[WARN] Could not create tracker 'mosse': " ++
             "Tracker type 'TrackerMOSSE_create' is not available in your OpenCV build."))
     (Read true :: roi_prompt ++
      [Print "[INFO] Initialized tracker: csrt";
       Print ("[WARN] Could not create tracker 'mosse': " ++
              "Tracker type 'TrackerMOSSE_create' is not available in your OpenCV build.");
       Read true; Match 1 0.9 (3, 4)%Z; Update "csrt" 1; Show 1; Read false;
       Print (newline ++ "=== Tracking survival summary ===");
       Print "Total frames processed: 1";
       Print "template : survived 1 / 1 frames";
       Print "csrt     : survived 1 / 1 frames"]).
Proof.
  assert (Hroi : roi_selected Demo.env (Demo.conf 1) Demo.roi).
  { split; discriminate. }
  split; [exact Hroi|].
  assert (Hin : In "mosse" ["csrt"; "mosse"; "template"]).
  { right. now left. }
  split; [exact Hin|].
  apply (proj1 (failed_method_is_excluded Demo.env (Demo.conf 1)
                  [Demo.conf 0.9] Demo.roi Demo.no_key "video.mp4"
                  ["csrt"; "mosse"; "template"] "mosse"
                  "Tracker type 'TrackerMOSSE_create' is not available in your OpenCV build."
                  _
                  (Some (Build_session Demo.env
                           [("template", None); ("csrt", Some "csrt")]
                           [("template", false); ("csrt", false)]
                           [("template", 1%nat); ("csrt", 1%nat)]
                           true (Some 1) 1))
                  Hroi Hin ltac:(discriminate) eq_refl eq_refl)).
Defined.

(** ** C8: the final report *)

(** [survival[name]] read as a number, for a name that has an entry. *)
Definition survived {E : cv2} (st : session E) (name : string) : nat :=
  match dict_get (survival st) name with
  | Some n => n
  | None => 0%nat
  end.

Lemma map_over_keys {V A : Type} (d : dict V) (f : string * V -> A) (dflt : V) :
  NoDup (keys d) ->
  map f d = map (fun k => f (k, dict_get_default d k dflt)) (keys d).
Proof.
  intros Hnd. unfold keys. rewrite map_map. apply map_ext_in.
  intros [k v] Hin. simpl. unfold dict_get_default.
  now rewrite (in_dict_get d k v Hnd Hin).
Qed.

(** The final report in the words of the specification. *)
Definition report_as_stated {E : cv2} (st : session E) : list event :=
  Print ("Total frames processed: " ++ str (total_frames st))
  :: map (fun entry =>
            Print (fst entry ++ ": survived " ++ str (snd entry) ++ " / " ++
                   str (total_frames st) ++ " frames"))
       (survival st).

(** A run ends with the report as the specification words it. *)
Definition final_report_as_stated {E : cv2} (tr : list event)
    (st : session E) : Prop :=
  exists pre, tr = pre ++ report_as_stated st.

Module ReportRun.
Import Demo.

Definition final : session env :=
  Build_session env [("csrt", Some "csrt")] [("csrt", false)]
    [("csrt", 1%nat)] false None 1.

Definition trace : list event :=
  Read true :: roi_prompt ++
  [Print "[INFO] Initialized tracker: csrt";
   Read true; Update "csrt" 1; Show 1; Read false;
   Print (newline ++ "=== Tracking survival summary ===");
   Print "Total frames processed: 1";
   Print "csrt     : survived 1 / 1 frames"].
End ReportRun.

(** C8, as stated, fails: the run over one frame with CSRT alone ends with
    the line [csrt     : survived 1 / 1 frames], the name padded to nine
    characters, not with [csrt: survived 1 / 1 frames]. *)
Lemma final_report_as_stated_fails :
  Demo.run [Demo.conf 1; Demo.conf 0.9] ["csrt"]
    = Some (ReportRun.trace, Some ReportRun.final) /\
  ~ final_report_as_stated ReportRun.trace ReportRun.final.
Proof.
  split; [reflexivity|].
  intros [pre Hpre].
  apply (f_equal (fun l => hd SelectROI (rev l))) in Hpre.
  rewrite rev_app_distr in Hpre. vm_compute in Hpre. discriminate.
Qed.

(** C8 (amended).  When a region is selected and at least one tracker is
    initialized, the run returns, and what it prints after the frame loop is
    the header line, then [Total frames processed: N], then one line per
    initialized tracker, lost or not, in initialization order, each made of
    the name left-justified to nine characters, [: survived S / N frames]
    with the tracker's final survival count S. *)
Theorem final_report (E : cv2) (first_frame : Frame E)
    (frames : list (Frame E)) (selectROI : Frame E -> Z * Z * Z * Z)
    (waitKey : nat -> Z) (video_path : string) (methods : list string) :
  roi_selected E first_frame selectROI ->
  init_order E first_frame (selectROI first_frame) methods <> [] ->
  exists st ev,
    frame_loop E frames waitKey
      (fst (init_session E first_frame (selectROI first_frame) methods))
      = Some (st, ev) /\
    run_tracking E true (first_frame :: frames) selectROI waitKey video_path
      methods
    = Some ((Read true :: roi_prompt ++
             flat_map (init_message E first_frame (selectROI first_frame))
               methods ++ ev) ++
            Print (newline ++ "=== Tracking survival summary ===")
            :: Print ("Total frames processed: " ++ str (total_frames st))
            :: map (fun name =>
                      Print (ljust 9 name ++ ": survived " ++
                             str (survived st name) ++ " / " ++
                             str (total_frames st) ++ " frames"))
                 (init_order E first_frame (selectROI first_frame) methods),
            Some st).
Proof.
  intros Hroi Hsome.
  rewrite run_tracking_body by assumption.
  set (bbox := selectROI first_frame) in *.
  set (st0 := fst (init_session E first_frame bbox methods)) in *.
  destruct (session_keys E first_frame bbox methods st0 (visits_start E st0))
    as (Hwf0 & Kt0 & _).
  destruct (frame_loop_progress E frames waitKey st0 Hwf0) as (st & ev & Hloop).
  exists st, ev. split; [assumption|].
  destruct (trackers st0) as [|kv d] eqn:Hd.
  { exfalso. apply Hsome. rewrite <- Kt0. reflexivity. }
  rewrite Hloop. cbn [bind].
  pose proof (frame_loop_visits E frames waitKey st0 st ev Hloop) as Hv.
  destruct (session_keys E first_frame bbox methods st Hv)
    as (Hwf & Kt & Kl & Ks).
  f_equal. f_equal.
  rewrite <- app_comm_cons. rewrite <- !app_assoc.
  do 4 f_equal. unfold summary. do 2 f_equal.
  rewrite (map_over_keys (survival st) _ 0%nat).
  - rewrite Ks. reflexivity.
  - rewrite Ks. apply init_order_NoDup.
Qed.

Lemma final_report_witness :
  roi_selected Demo.env (Demo.conf 1) Demo.roi /\
  init_order Demo.env (Demo.conf 1) (Demo.roi (Demo.conf 1))
    ["csrt"; "template"] <> [] /\
  exists st ev,
    frame_loop Demo.env [Demo.conf 0.4] Demo.no_key
      (DemoRuns.start ["csrt"; "template"]) = Some (st, ev) /\
    Demo.run [Demo.conf 1; Demo.conf 0.4] ["csrt"; "template"]
    = Some ((Read true :: roi_prompt ++
             [Print "[INFO] Initialized tracker: csrt"] ++ ev) ++
            Print (newline ++ "=== Tracking survival summary ===")
            :: Print ("Total frames processed: " ++ str (total_frames st))
            :: [Print ("template : survived " ++ str (survived st "template")
                       ++ " / " ++ str (total_frames st) ++ " frames");
                Print ("csrt     : survived " ++ str (survived st "csrt")
                       ++ " / " ++ str (total_frames st) ++ " frames")],
            Some st).
Proof.
  assert (Hroi : roi_selected Demo.env (Demo.conf 1) Demo.roi).
  { split; discriminate. }
  split; [exact Hroi|].
  assert (Hsome : init_order Demo.env (Demo.conf 1) (Demo.roi (Demo.conf 1))
                    ["csrt"; "template"] <> []).
  { discriminate. }
  split; [exact Hsome|].
  exact (final_report Demo.env (Demo.conf 1) [Demo.conf 0.4] Demo.roi
           Demo.no_key "video.mp4" ["csrt"; "template"] Hroi Hsome).
Defined.

(** ** C10: a method requested more than once *)

(** The claim in its own words: a name requested more than once has exactly
    one entry, and the summary has one line per distinct requested name. *)
Definition duplicates_collapse_as_stated (E : cv2) (first_frame : Frame E)
    (bbox : Z * Z * Z * Z) (methods : list string) : Prop :=
  let st0 := fst (init_session E first_frame bbox methods) in
  (forall name, (1 < count_occ string_dec methods name)%nat ->
     count_occ string_dec (keys (trackers st0)) name = 1%nat) /\
  length (survival st0) = length (nodup string_dec methods).

(** C10, as stated, fails: MOSSE requested twice in a build without it has
    no entry at all, and the summary has one line for two distinct names. *)
Lemma duplicates_collapse_as_stated_fails :
  ~ duplicates_collapse_as_stated Demo.env (Demo.conf 1)
      (Demo.roi (Demo.conf 1)) ["template"; "mosse"; "mosse"].
Proof.
  intros [H _]. specialize (H "mosse").
  assert (Hc : (1 < count_occ string_dec ["template"; "mosse"; "mosse"] "mosse")%nat).
  { vm_compute. lia. }
  specialize (H Hc). vm_compute in H. discriminate.
Qed.

(** C10 (amended).  A name requested more than once has at most one entry
    in the session: exactly one if it is the template or a built-in method
    that initializes, none if its initialization raises.  Every occurrence
    of a built-in method is constructed and initialized anew (each prints
    its own message); before the loop starts the entry holds the freshly
    initialized tracker, a false lost flag and a survival count of 0.  In
    every later session the keys of [survival], hence the summary lines, are
    the distinct names that were initialized, each once. *)
Theorem duplicates_collapse (E : cv2) (first_frame : Frame E)
    (bbox : Z * Z * Z * Z) (methods : list string) (name : string) :
  (1 < count_occ string_dec methods name)%nat ->
  let st0 := fst (init_session E first_frame bbox methods) in
  count_occ string_dec (keys (trackers st0)) name =
    (if (name =? "template") || initializes E first_frame bbox name
     then 1%nat else 0%nat) /\
  snd (init_session E first_frame bbox methods) =
    flat_map (init_message E first_frame bbox) methods /\
  (forall t, name <> "template" ->
     try_init E first_frame bbox name = Ok t ->
     init_message E first_frame bbox name =
       [Print ("[INFO] Initialized tracker: " ++ name)] /\
     entry E st0 name = (Some (Some t), Some false, Some 0%nat)) /\
  (forall st, visits E st0 st ->
     keys (trackers st) = keys (survival st) /\
     keys (lost st) = keys (survival st) /\
     NoDup (keys (survival st)) /\
     length (summary E st) = (2 + length (keys (survival st)))%nat /\
     forall x, In x (keys (survival st)) <->
       In x methods /\
       (x = "template" \/ initializes E first_frame bbox x = true)).
Proof.
  intros Hdup st0.
  assert (Hin : In name methods).
  { apply (count_occ_In string_dec). lia. }
  destruct (init_session_fresh E first_frame bbox methods) as (Hf & Hk & _).
  fold st0 in Hf, Hk.
  pose proof (init_order_NoDup E first_frame bbox methods) as Hnd.
  split.
  { rewrite Hk.
    destruct ((name =? "template") || initializes E first_frame bbox name)
      eqn:Hok.
    - apply NoDup_count_occ'; [assumption|]. apply init_order_in.
      split; [assumption|]. apply orb_true_iff in Hok.
      destruct Hok as [Hok|Hok]; [left; now apply String.eqb_eq | now right].
    - apply count_occ_not_In. intros Hx. apply init_order_in in Hx.
      apply orb_false_iff in Hok. destruct Hok as [Hne Hi].
      apply String.eqb_neq in Hne. destruct Hx as [_ [Hx|Hx]]; congruence. }
  split.
  { unfold init_session. apply init_builtin_events. }
  split.
  { intros t Hne Ht. split.
    - unfold init_message. apply String.eqb_neq in Hne. now rewrite Hne, Ht.
    - assert (Hkey : In name (keys (trackers st0))).
      { rewrite Hk. apply init_order_in. split; [assumption|right].
        unfold initializes. now rewrite Ht. }
      pose proof (fresh_wf _ _ _ _ Hf) as Hwf.
      destruct (in_keys_get _ _ Hkey) as [tr Htr].
      destruct (fresh_handle _ _ _ _ Hf name tr Hne Htr) as (t' & -> & Ht').
      assert (t' = t) by congruence. subst t'.
      assert (Hkl : In name (keys (lost st0))) by now rewrite (wf_lost E st0 Hwf).
      assert (Hks : In name (keys (survival st0)))
        by now rewrite (wf_survival E st0 Hwf).
      destruct (in_keys_get _ _ Hkl) as [b Hb].
      destruct (in_keys_get _ _ Hks) as [n Hn].
      unfold entry. rewrite Htr, Hb, Hn.
      rewrite (fresh_lost _ _ _ _ Hf name b Hb).
      rewrite (fresh_survival _ _ _ _ Hf name n Hn). reflexivity. }
  intros st Hv.
  destruct (session_keys E first_frame bbox methods st Hv) as (_ & Kt & Kl & Ks).
  rewrite Kt, Kl, Ks. split; [reflexivity|]. split; [reflexivity|].
  split; [assumption|]. split.
  - unfold summary. simpl. rewrite length_map. rewrite <- Ks.
    unfold keys. now rewrite length_map.
  - intros x. apply init_order_in.
Qed.

Lemma duplicates_collapse_witness :
  (1 < count_occ string_dec ["csrt"; "template"; "csrt"] "csrt")%nat /\
  count_occ string_dec
    (keys (trackers (DemoRuns.start ["csrt"; "template"; "csrt"]))) "csrt"
  = 1%nat.
Proof.
  assert (Hc : (1 < count_occ string_dec ["csrt"; "template"; "csrt"] "csrt")%nat).
  { vm_compute. lia. }
  split; [exact Hc|].
  exact (proj1 (duplicates_collapse Demo.env (Demo.conf 1)
                  (Demo.roi (Demo.conf 1)) ["csrt"; "template"; "csrt"]
                  "csrt" Hc)).
Defined.

(** * Beyond the claims *)

(** ** run_tracking as a whole (lines 30-163) *)

(** The four conditions under which [run_tracking] returns early. *)
Definition aborts (E : cv2) (isOpened : bool) (video : list (Frame E))
    (selectROI : Frame E -> Z * Z * Z * Z) (methods : list string) : Prop :=
  isOpened = false \/
  video = [] \/
  (exists first_frame frames, video = first_frame :: frames /\
     let '(_, _, w, h) := selectROI first_frame in (w = 0)%Z \/ (h = 0)%Z) \/
  (exists first_frame frames, video = first_frame :: frames /\
     init_order E first_frame (selectROI first_frame) methods = []).

Definition is_error (e : event) : Prop :=
  exists msg, e = Print ("[ERROR] " ++ msg).

Lemma roi_selected_dec (E : cv2) (first_frame : Frame E)
    (selectROI : Frame E -> Z * Z * Z * Z) :
  roi_selected E first_frame selectROI \/
  (let '(_, _, w, h) := selectROI first_frame in (w = 0)%Z \/ (h = 0)%Z).
Proof.
  unfold roi_selected. destruct (selectROI first_frame) as [[[x y] w] h].
  destruct (Z.eq_dec w 0) as [Hw|Hw]; [right; now left|].
  destruct (Z.eq_dec h 0) as [Hh|Hh]; [right; now right|].
  left. split; assumption.
Qed.

Lemma run_tracking_empty_roi (E : cv2) (first_frame : Frame E)
    (frames : list (Frame E)) (selectROI : Frame E -> Z * Z * Z * Z)
    (waitKey : nat -> Z) (video_path : string) (methods : list string) :
  (let '(_, _, w, h) := selectROI first_frame in (w = 0)%Z \/ (h = 0)%Z) ->
  run_tracking E true (first_frame :: frames) selectROI waitKey video_path
    methods
  = Some (Read true :: roi_prompt ++
          [Print "[ERROR] Empty ROI selected. Exiting."], None).
Proof.
  unfold run_tracking. simpl negb. cbv iota.
  destruct (selectROI first_frame) as [[[x y] w] h]. intros Hz.
  assert (Hb : (w =? 0)%Z || (h =? 0)%Z = true).
  { apply orb_true_iff. destruct Hz as [Hz|Hz]; [left|right];
      now apply Z.eqb_eq. }
  now rewrite Hb.
Qed.

Lemma init_empty_all_warnings (E : cv2) (first_frame : Frame E)
    (bbox : Z * Z * Z * Z) (methods : list string) :
  init_order E first_frame bbox methods = [] ->
  Forall is_warning (flat_map (init_message E first_frame bbox) methods).
Proof.
  intros Hempty. apply Forall_forall. intros e Hin.
  apply in_flat_map in Hin. destruct Hin as (m & Hm & Hin).
  assert (Hout : ~ In m (init_order E first_frame bbox methods))
    by (rewrite Hempty; intros []).
  rewrite init_order_in in Hout. unfold init_message in Hin.
  destruct (String.eqb_spec m "template") as [->|Hne].
  - destruct Hin.
  - destruct (try_init E first_frame bbox m) as [t|msg] eqn:Hi.
    + exfalso. apply Hout. split; [assumption|right].
      unfold initializes. now rewrite Hi.
    + destruct Hin as [<-|[]]. exists m, msg. reflexivity.
Qed.


(** X2.  A run ends without a session exactly when the video cannot be
    opened, its first frame cannot be read, the selected region has zero
    width or height, or no requested method could be initialized. *)
Theorem run_aborts_iff (E : cv2) (isOpened : bool)
    (video : list (Frame E)) (selectROI : Frame E -> Z * Z * Z * Z)
    (waitKey : nat -> Z) (video_path : string) (methods : list string)
    (tr : list event) (fin : option (session E)) :
  run_tracking E isOpened video selectROI waitKey video_path methods
    = Some (tr, fin) ->
  (fin = None <-> aborts E isOpened video selectROI methods).
Proof.
  intros Hrun. unfold aborts.
  destruct isOpened.
  2:{ simpl in Hrun. inversion Hrun; subst. split; auto. }
  destruct video as [|first_frame frames].
  { simpl in Hrun. inversion Hrun; subst. split; auto. }
  destruct (roi_selected_dec E first_frame selectROI) as [Hroi|Hroi].
  - rewrite run_tracking_body in Hrun by assumption.
    set (st0 := fst (init_session E first_frame (selectROI first_frame) methods)) in *.
    destruct (init_session_fresh E first_frame (selectROI first_frame) methods) as (Hf & Hk & _).
    fold st0 in Hk.
    destruct (trackers st0) as [|kv d] eqn:Hd.
    + assert (fin = None) by congruence. subst fin. split; [|reflexivity].
      intros _. right. right. right. exists first_frame, frames.
      split; [reflexivity|]. now rewrite <- Hk.
    + destruct (frame_loop E frames waitKey st0) as [[st ev]|] eqn:Hloop;
        cbn [bind] in Hrun; [|discriminate].
      assert (Hfin : fin = Some st) by congruence. subst fin.
      split; [discriminate|].
      intros [Hx|[Hx|[(f & fs & Hv & Hz)|(f & fs & Hv & He)]]];
        try discriminate.
      * exfalso. inversion Hv; subst f fs. unfold roi_selected in Hroi.
        destruct (selectROI first_frame) as [[[x y] w] h]. tauto.
      * exfalso. inversion Hv; subst f fs.
        rewrite <- Hk in He. discriminate.
  - rewrite run_tracking_empty_roi in Hrun by assumption.
    assert (fin = None) by congruence. subst fin. split; [|reflexivity].
    intros _. right. right. left. exists first_frame, frames. auto.
Qed.

Lemma run_aborts_iff_witness :
  Demo.run [] ["template"] =
    Some ([Read false; Print "[ERROR] Could not read first frame from video."],
          None) /\
  ((None : option (session Demo.env)) = None <->
   aborts Demo.env true ([] : list (Frame Demo.env)) Demo.roi ["template"]).
Proof.
  split; [reflexivity|].
  exact (run_aborts_iff Demo.env true [] Demo.roi Demo.no_key "video.mp4"
           ["template"] _ None eq_refl).
Defined.

(** X3.  A run that ends without a session prints exactly one [ERROR]
    line, as its last event; before it there is at most the read of the
    first frame, the region prompt and warnings: no tracker is matched,
    updated or shown, and nothing is read after the first frame. *)
Theorem aborted_run_trace (E : cv2) (isOpened : bool)
    (video : list (Frame E)) (selectROI : Frame E -> Z * Z * Z * Z)
    (waitKey : nat -> Z) (video_path : string) (methods : list string)
    (tr : list event) :
  run_tracking E isOpened video selectROI waitKey video_path methods
    = Some (tr, None) ->
  exists pre err,
    tr = pre ++ [err] /\ is_error err /\
    (pre = [] \/ pre = [Read false] \/
     exists warnings, pre = Read true :: roi_prompt ++ warnings /\
       Forall is_warning warnings) /\
    (forall e, In e pre -> ~ is_error e).
Proof.
  intros Hrun.
  assert (Hshape : exists pre err,
    tr = pre ++ [err] /\ is_error err /\
    (pre = [] \/ pre = [Read false] \/
     exists warnings, pre = Read true :: roi_prompt ++ warnings /\
       Forall is_warning warnings)).
  { destruct isOpened.
    2:{ simpl in Hrun. inversion Hrun; subst.
        exists [], (Print ("[ERROR] Could not open video: " ++ video_path)).
        split; [reflexivity|]. split; [eexists; reflexivity | now left]. }
    destruct video as [|first_frame frames].
    { simpl in Hrun. inversion Hrun; subst.
      exists [Read false],
        (Print "[ERROR] Could not read first frame from video.").
      split; [reflexivity|]. split; [eexists; reflexivity | right; now left]. }
    destruct (roi_selected_dec E first_frame selectROI) as [Hroi|Hroi].
    - rewrite run_tracking_body in Hrun by assumption.
        set (st0 := fst (init_session E first_frame (selectROI first_frame) methods)) in *.
      destruct (init_session_fresh E first_frame (selectROI first_frame) methods) as (Hf & Hk & _).
      fold st0 in Hk.
      destruct (trackers st0) as [|kv d] eqn:Hd.
      + assert (Htr : tr = Read true :: roi_prompt ++
                  flat_map (init_message E first_frame (selectROI first_frame)) methods ++
                  [Print "[ERROR] No valid trackers initialized. Exiting."])
          by congruence.
        exists (Read true :: roi_prompt ++
                flat_map (init_message E first_frame (selectROI first_frame)) methods),
          (Print "[ERROR] No valid trackers initialized. Exiting.").
        split; [rewrite Htr; simpl; f_equal; now rewrite <- app_assoc|].
        split; [eexists; reflexivity|]. right. right.
        eexists. split; [reflexivity|].
        apply init_empty_all_warnings. now rewrite <- Hk.
      + destruct (frame_loop E frames waitKey st0) as [[st ev]|];
          cbn [bind] in Hrun; discriminate.
    - rewrite run_tracking_empty_roi in Hrun by assumption.
      assert (Htr : tr = Read true :: roi_prompt ++
                [Print "[ERROR] Empty ROI selected. Exiting."]) by congruence.
      exists (Read true :: roi_prompt ++ []),
        (Print "[ERROR] Empty ROI selected. Exiting.").
      split; [rewrite Htr, app_nil_r; reflexivity|].
      split; [eexists; reflexivity|]. right. right.
      exists []. split; [reflexivity | constructor]. }
  destruct Hshape as (pre & err & Htr & Herr & Hpre).
  exists pre, err. split; [assumption|]. split; [assumption|].
  split; [assumption|].
  intros e Hin [msg Hmsg]. subst e.
  destruct Hpre as [->|[->|(ws & -> & Hws)]].
  - destruct Hin.
  - destruct Hin as [Hx|[]]; discriminate.
  - destruct Hin as [Hx|Hin]; [discriminate|].
    apply in_app_or in Hin. destruct Hin as [Hin|Hin].
    + simpl in Hin. repeat (destruct Hin as [Hx|Hin]; [discriminate|]).
      destruct Hin.
    + rewrite Forall_forall in Hws. destruct (Hws _ Hin) as (m & w & Hw).
      discriminate.
Qed.

Lemma aborted_run_trace_witness :
  Demo.run [Demo.conf 1] ["mosse"] =
    Some (Read true :: roi_prompt ++
          [Print ("[WARN] Could not create tracker 'mosse': " ++
                  "Tracker type 'TrackerMOSSE_create' is not available in your OpenCV build.");
           Print "[ERROR] No valid trackers initialized. Exiting."], None) /\
  exists pre err,
    Read true :: roi_prompt ++
      [Print ("[WARN] Could not create tracker 'mosse': " ++
              "Tracker type 'TrackerMOSSE_create' is not available in your OpenCV build.");
       Print "[ERROR] No valid trackers initialized. Exiting."]
    = pre ++ [err] /\ is_error err.
Proof.
  split; [reflexivity|].
  destruct (aborted_run_trace Demo.env true [Demo.conf 1] Demo.roi Demo.no_key
              "video.mp4" ["mosse"] _ eq_refl) as (pre & err & Htr & Herr & _).
  exists pre, err. split; assumption.
Defined.

(** ** The frame loop seen from outside (lines 87-154) *)

(** Reads of the capture and displayed frames. *)
Definition io_event (e : event) : bool :=
  match e with
  | Read _ | Show _ => true
  | _ => false
  end.

Lemma process_frame_io (E : cv2) (frame : Frame E) (st st' : session E)
    (evs : list event) :
  process_frame E frame st = Some (st', evs) ->
  filter io_event evs = [Show (S (total_frames st))].
Proof.
  intros H. apply process_frame_inv in H.
  destruct H as (st1 & ev1 & ev2 & H1 & H2 & -> & _).
  rewrite !filter_app. simpl.
  assert (He1 : filter io_event ev1 = []).
  { apply template_step_inv in H1.
    destruct H1 as [[_ [-> _]]|(_ & _ & tpl & _ & -> & _)]; reflexivity. }
  assert (He2 : filter io_event ev2 = []).
  { assert (Hall : forall e, In e ev2 -> io_event e = false).
    { intros e Hin.
      destruct (builtin_loop_events _ _ _ _ _ _ _ H2 Hin) as (nm & -> & _).
      reflexivity. }
    clear H2. induction ev2 as [|e ev2 IH]; [reflexivity|]. simpl.
    rewrite (Hall e (or_introl eq_refl)). apply IH.
    intros e' Hin. apply Hall. now right. }
  now rewrite He1, He2.
Qed.

(** X4.  Seen from the capture and the display, the frame loop is a
    sequence of read-then-show pairs, one per counted frame and numbered in
    order; the capture is polled once more, and answers that the stream is
    over, unless the loop stopped on a quit key. *)
Theorem frame_loop_reads_and_shows (E : cv2) (frames : list (Frame E))
    (waitKey : nat -> Z) (st st' : session E) (evs : list event) :
  frame_loop E frames waitKey st = Some (st', evs) ->
  let k := (total_frames st' - total_frames st)%nat in
  filter io_event evs =
    flat_map (fun i => [Read true; Show i]) (seq (S (total_frames st)) k) ++
    (if (0 <? k)%nat && quit_key (waitKey (total_frames st'))
     then [] else [Read false]).
Proof.
  revert st st' evs.
  induction frames as [|frame frames IH]; intros st st' evs H.
  - inversion H; subst. rewrite Nat.sub_diag. reflexivity.
  - apply frame_loop_cons in H. destruct H as (st1 & ev1 & H1 & Hrest).
    pose proof (process_frame_io E frame st st1 ev1 H1) as Hio.
    destruct (process_frame_total _ _ _ _ _ H1) as (Ht & _).
    destruct Hrest as [(Hq & -> & ->)|(Hq & ev2 & H2 & ->)].
    + rewrite Ht. replace (S (total_frames st) - total_frames st)%nat
        with 1%nat by lia.
      simpl. rewrite Hio. rewrite Ht in Hq. rewrite Hq. reflexivity.
    + destruct (frame_loop_total E frames waitKey st1 st' ev2 H2)
        as (k' & Hk' & _).
      specialize (IH st1 st' ev2 H2). cbv zeta in IH.
      replace (total_frames st' - total_frames st1)%nat with k' in IH by lia.
      replace (total_frames st' - total_frames st)%nat with (S k') by lia.
      simpl filter. rewrite filter_app, Hio, IH. rewrite Ht.
      cbn [seq flat_map app]. f_equal. f_equal. f_equal.
      destruct k' as [|k'']; [|reflexivity].
      simpl. replace (total_frames st') with (total_frames st1) by lia.
      now rewrite Hq.
Qed.

Lemma frame_loop_reads_and_shows_witness :
  frame_loop Demo.env [Demo.conf 0.9; Demo.conf 0.8] (fun n => if (n =? 1)%nat then 113%Z else (-1)%Z)
    (DemoRuns.start ["template"])
  = Some (Build_session Demo.env [("template", None)] [("template", false)]
            [("template", 1%nat)] true (Some 1) 1,
          [Read true; Match 1 0.9 (3, 4)%Z; Show 1]) /\
  filter io_event [Read true; Match 1 0.9 (3, 4)%Z; Show 1] =
    [Read true; Show 1].
Proof.
  split; [reflexivity|].
  exact (frame_loop_reads_and_shows Demo.env [Demo.conf 0.9; Demo.conf 0.8]
           (fun n => if (n =? 1)%nat then 113%Z else (-1)%Z)
           (DemoRuns.start ["template"]) _ _ eq_refl).
Defined.

(** ** Which trackers a frame calls (lines 115-131) *)

(** A name whose tracker is updated on the next frame: not the template,
    and not lost ([lost.get(name, True)] is false). *)
Definition active {E : cv2} (st : session E) (name : string) : bool :=
  negb (name =? "template") && negb (dict_get_default (lost st) name true).

Lemma builtin_step_trace (E : cv2) (frame : Frame E) (name : string)
    (tr : option (Tracker E)) (st st1 : session E) (ev : list event) :
  builtin_step E frame name tr st = Some (st1, ev) ->
  ev = if active st name then [Update name (total_frames st)] else [].
Proof.
  intros H. apply builtin_step_inv in H. unfold active.
  destruct H as [[_ [-> Hskip]]|[Hne [Hl (t & t' & ok & bx & by_ & bw & bh & _ & _ & -> & _)]]].
  - destruct Hskip as [->|Hd]; [reflexivity|].
    rewrite Hd. now rewrite andb_false_r.
  - apply String.eqb_neq in Hne. unfold dict_get_default. now rewrite Hne, Hl.
Qed.

Lemma builtin_loop_trace (E : cv2) (frame : Frame E)
    (items : list (string * option (Tracker E))) :
  forall (st st' : session E) (evs : list event),
  NoDup (map fst items) ->
  builtin_loop E frame items st = Some (st', evs) ->
  evs = map (fun name => Update name (total_frames st))
          (filter (active st) (map fst items)).
Proof.
  induction items as [|[nm tr] items IH]; intros st st' evs Hnd H.
  - inversion H; subst. reflexivity.
  - apply builtin_loop_cons in H.
    destruct H as (st1 & ev1 & ev2 & H1 & H2 & ->).
    simpl in Hnd. inversion Hnd as [|? ? Hnin Hnd']; subst.
    rewrite (builtin_step_trace _ _ _ _ _ _ _ H1).
    rewrite (IH _ _ _ Hnd' H2).
    destruct (builtin_step_context _ _ _ _ _ _ _ H1) as (_ & _ & Ht).
    rewrite Ht.
    assert (Hext : filter (active st1) (map fst items) =
                   filter (active st) (map fst items)).
    { apply filter_ext_in. intros x Hx. unfold active, dict_get_default.
      assert (Hne : x <> nm) by (intros ->; contradiction).
      pose proof (builtin_step_other _ _ _ _ _ _ _ x H1 Hne) as He.
      unfold entry in He. injection He as _ Hl _. now rewrite Hl. }
    rewrite Hext. simpl. now destruct (active st nm).
Qed.

(** X5.  On every frame the trace is: at most one template match, then one
    [update] call for each built-in tracker that was not lost when the frame
    started, in initialization order and each exactly once, then the
    display.  A tracker lost earlier in the run is not called. *)
Theorem frame_calls (E : cv2) (first_frame : Frame E)
    (bbox : Z * Z * Z * Z) (methods : list string) (frame : Frame E)
    (st st' : session E) (evs : list event) :
  visits E (fst (init_session E first_frame bbox methods)) st ->
  process_frame E frame st = Some (st', evs) ->
  exists matched,
    evs = matched ++
          map (fun name => Update name (S (total_frames st)))
            (filter (active st) (init_order E first_frame bbox methods)) ++
          [Show (S (total_frames st))] /\
    (matched = [] \/
     exists c l, matched = [Match (S (total_frames st)) c l] /\
       dict_get (lost st) "template" = Some false).
Proof.
  intros Hv H.
  destruct (session_keys E first_frame bbox methods st Hv) as (Hwf & Kt & _).
  apply process_frame_inv in H.
  destruct H as (st1 & ev1 & ev2 & H1 & H2 & -> & Ht).
  exists ev1. split.
  - f_equal. f_equal.
    rewrite (builtin_loop_trace E frame (trackers st) st1 st' ev2
               (wf_nodup E st Hwf) H2).
    rewrite Ht. fold (keys (trackers st)). rewrite Kt. f_equal.
    apply filter_ext. intros x. unfold active, dict_get_default.
    destruct (String.eqb_spec x "template") as [->|Hne]; [reflexivity|].
    pose proof (template_step_other _ _ _ _ _ x H1 Hne) as He.
    unfold entry in He. simpl in He. injection He as _ Hl _. now rewrite Hl.
  - apply template_step_inv in H1. simpl in H1.
    destruct H1 as [[_ [-> _]]|(_ & Hl & tpl & _ & -> & _)]; [now left|].
    right. eauto.
Qed.

Lemma frame_calls_witness :
  visits Demo.env (DemoRuns.start ["template"; "csrt"]) DemoRuns.both_after_one /\
  exists matched,
    [Match 2 0.8 (3, 4)%Z; Update "csrt" 2; Show 2] =
      matched ++
      map (fun name => Update name 2)
        (filter (active DemoRuns.both_after_one) ["template"; "csrt"]) ++
      [Show 2].
Proof.
  assert (Hv : visits Demo.env (DemoRuns.start ["template"; "csrt"])
                 DemoRuns.both_after_one).
  { apply (visits_frame Demo.env _ (DemoRuns.start ["template"; "csrt"])
             (Demo.conf 1) DemoRuns.both_after_one
             [Match 1 1 (3, 4)%Z; Update "csrt" 1; Show 1]).
    - apply visits_start.
    - reflexivity. }
  split; [exact Hv|].
  destruct (frame_calls Demo.env (Demo.conf 1) (Demo.roi (Demo.conf 1))
              ["template"; "csrt"] (Demo.conf 0.8) DemoRuns.both_after_one
              _ _ Hv eq_refl) as (matched & Hev & _).
  exists matched. exact Hev.
Defined.

(** ** Survival against the frame counter *)

(** What a frame does to an entry that is not lost: it either loses it, or
    counts the frame for it. *)
Lemma process_frame_active_entry (E : cv2) (frame : Frame E)
    (st st' : session E) (evs : list event) (name : string) (n : nat) :
  wf E st ->
  (In "template" (keys (lost st)) -> use_template st = true) ->
  dict_get (lost st) name = Some false ->
  dict_get (survival st) name = Some n ->
  process_frame E frame st = Some (st', evs) ->
  exists b, dict_get (lost st') name = Some b /\
    dict_get (survival st') name = Some (if b then n else S n).
Proof.
  intros Hwf Hu Hl Hn H.
  destruct (String.eqb_spec name "template") as [->|Hne].
  - assert (Hut : use_template st = true).
    { apply Hu. eapply dict_get_in; eauto. }
    destruct (wf_template E st Hwf Hut) as [[tpl Ht] _].
    destruct (process_frame_template E frame st st' evs tpl n H Hut Hl Ht Hn)
      as (_ & Hl' & Hs').
    exists (negb (Qle_bool threshold (fst (match_step E frame tpl)))).
    split; [assumption|]. rewrite Hs'.
    now destruct (Qle_bool threshold (fst (match_step E frame tpl))).
  - assert (Hk : In name (keys (trackers st))).
    { rewrite <- (wf_lost E st Hwf). eapply dict_get_in; eauto. }
    destruct (in_keys_get _ _ Hk) as [tr Htr].
    destruct tr as [t|].
    2:{ exfalso. apply Hne. now apply (wf_handle E st Hwf). }
    pose proof (process_frame_builtin E frame st st' evs name t n
                  Hwf Hne Htr Hl Hn H) as Hstep.
    destruct (tracker_update E t frame) as [t' [ok [[[bx by_] bw] bh]]].
    destruct Hstep as [_ Hent]. unfold entry in Hent.
    injection Hent as _ Hl' Hs'.
    exists (negb ok || ((int bw <=? 0)%Z || (int bh <=? 0)%Z)). auto.
Qed.

(** X6.  In every session of a run, an entry that is not lost has survived
    every frame counted so far, and a lost entry has survived strictly fewer
    frames than were counted: the frame on which it was lost is counted but
    not survived. *)
Theorem survival_accounts (E : cv2) (first_frame : Frame E)
    (bbox : Z * Z * Z * Z) (methods : list string) (st : session E)
    (name : string) (b : bool) (n : nat) :
  visits E (fst (init_session E first_frame bbox methods)) st ->
  dict_get (lost st) name = Some b ->
  dict_get (survival st) name = Some n ->
  if b then (n < total_frames st)%nat else n = total_frames st.
Proof.
  intros Hv. revert name b n.
  destruct (init_session_fresh E first_frame bbox methods) as (Hf & Hk0 & Hu0).
  induction Hv as [|s frame s' evs Hv IH Hstep]; intros name b n Hl Hn.
  - rewrite (fresh_lost _ _ _ _ Hf name b Hl).
    rewrite (fresh_survival _ _ _ _ Hf name n Hn).
    symmetry. apply (fresh_total _ _ _ _ Hf).
  - destruct (session_keys E first_frame bbox methods s Hv) as (Hwf & Kt & Kl & Ks).
    destruct (process_frame_keys _ _ _ _ _ Hwf Hstep) as (_ & Kl' & Ks').
    destruct (process_frame_total _ _ _ _ _ Hstep) as (Ht & _).
    assert (Hin : In name (keys (lost s))).
    { rewrite <- Kl'. eapply dict_get_in; eauto. }
    destruct (in_keys_get _ _ Hin) as [b0 Hb0].
    assert (Hin' : In name (keys (survival s))) by now rewrite Ks, <- Kl.
    destruct (in_keys_get _ _ Hin') as [n0 Hn0].
    specialize (IH name b0 n0 Hb0 Hn0).
    destruct b0.
    + destruct (process_frame_lost _ _ _ _ _ name Hstep Hb0) as (He & _).
      unfold entry in He. injection He as _ Hl0 Hs0.
      assert (b = true) by congruence. assert (n = n0) by congruence.
      subst. lia.
    + assert (Hu : In "template" (keys (lost s)) -> use_template s = true).
      { intros Hx. rewrite Kl in Hx. apply init_order_in in Hx.
        destruct Hx as [Hx _].
        assert (Hus : use_template s =
                      use_template (fst (init_session E first_frame bbox methods))).
        { clear - Hv. induction Hv as [|s0 f s1 e Hv IH Hs]; [reflexivity|].
          destruct (process_frame_total _ _ _ _ _ Hs) as (_ & Hu & _).
          congruence. }
        rewrite Hus, Hu0. now apply existsb_eqb_in. }
      destruct (process_frame_active_entry E frame s s' evs name n0
                  Hwf Hu Hb0 Hn0 Hstep) as (b' & Hb' & Hn').
      assert (b = b') by congruence. subst b'.
      destruct b; [assert (n = n0) by congruence | assert (n = S n0) by congruence];
        subst; lia.
Qed.

Lemma survival_accounts_witness :
  visits Demo.env (DemoRuns.start ["template"]) DemoRuns.template_lost /\
  (2 < total_frames DemoRuns.template_lost)%nat.
Proof.
  assert (Hv : visits Demo.env (DemoRuns.start ["template"])
                 DemoRuns.template_lost).
  { apply (frame_loop_visits Demo.env
             [Demo.conf 0.9; Demo.conf 0.8; Demo.conf 0.4] Demo.no_key
             (DemoRuns.start ["template"]) DemoRuns.template_lost
             [Read true; Match 1 0.9 (3, 4)%Z; Show 1;
              Read true; Match 2 0.8 (3, 4)%Z; Show 2;
              Read true; Match 3 0.4 (3, 4)%Z; Show 3; Read false]).
    reflexivity. }
  split; [exact Hv|].
  exact (survival_accounts Demo.env (Demo.conf 1) (Demo.roi (Demo.conf 1))
           ["template"] DemoRuns.template_lost "template" true 2%nat
           Hv eq_refl eq_refl).
Defined.

(** ** create_tracker and the names of the entries (lines 5-28, 57-79) *)

Lemma init_entry (E : cv2) (first_frame : Frame E) (bbox : Z * Z * Z * Z)
    (methods : list string) (name : string) (t : Tracker E) :
  In name methods -> name <> "template" ->
  try_init E first_frame bbox name = Ok t ->
  entry E (fst (init_session E first_frame bbox methods)) name =
    (Some (Some t), Some false, Some 0%nat).
Proof.
  intros Hin Hne Ht.
  set (st0 := fst (init_session E first_frame bbox methods)).
  destruct (init_session_fresh E first_frame bbox methods) as (Hf & Hk & _).
  fold st0 in Hf, Hk.
  pose proof (fresh_wf _ _ _ _ Hf) as Hwf.
  assert (Hkey : In name (keys (trackers st0))).
  { rewrite Hk. apply init_order_in. split; [assumption|right].
    unfold initializes. now rewrite Ht. }
  destruct (in_keys_get _ _ Hkey) as [tr Htr].
  destruct (fresh_handle _ _ _ _ Hf name tr Hne Htr) as (t' & -> & Ht').
  assert (t' = t) by congruence. subst t'.
  assert (Hkl : In name (keys (lost st0))) by now rewrite (wf_lost E st0 Hwf).
  assert (Hks : In name (keys (survival st0)))
    by now rewrite (wf_survival E st0 Hwf).
  destruct (in_keys_get _ _ Hkl) as [b Hb].
  destruct (in_keys_get _ _ Hks) as [n Hn].
  unfold entry. rewrite Htr, Hb, Hn.
  rewrite (fresh_lost _ _ _ _ Hf name b Hb).
  rewrite (fresh_survival _ _ _ _ Hf name n Hn). reflexivity.
Qed.

(** X7.  [create_tracker] lowercases the name it is given, the dicts do
    not: two different spellings of one built-in method, both requested,
    become two separate entries, each holding a tracker of that method,
    whenever the method initializes. *)
Theorem spellings_are_separate_entries (E : cv2) (first_frame : Frame E)
    (bbox : Z * Z * Z * Z) (methods : list string) (m1 m2 : string)
    (t : Tracker E) :
  In m1 methods -> In m2 methods -> m1 <> m2 ->
  m1 <> "template" -> m2 <> "template" ->
  lower m1 = lower m2 ->
  try_init E first_frame bbox m1 = Ok t ->
  let st0 := fst (init_session E first_frame bbox methods) in
  create_tracker E m2 = create_tracker E m1 /\
  entry E st0 m1 = (Some (Some t), Some false, Some 0%nat) /\
  entry E st0 m2 = (Some (Some t), Some false, Some 0%nat) /\
  (2 <= length (keys (survival st0)))%nat.
Proof.
  intros Hin1 Hin2 Hne H1 H2 Hlow Ht st0.
  assert (Hc : create_tracker E m2 = create_tracker E m1).
  { unfold create_tracker. now rewrite Hlow. }
  assert (Ht2 : try_init E first_frame bbox m2 = Ok t).
  { unfold try_init in *. now rewrite Hc. }
  pose proof (init_entry E first_frame bbox methods m1 t Hin1 H1 Ht) as He1.
  pose proof (init_entry E first_frame bbox methods m2 t Hin2 H2 Ht2) as He2.
  fold st0 in He1, He2.
  split; [assumption|]. split; [assumption|]. split; [assumption|].
  unfold entry in He1, He2. injection He1 as _ _ Hs1. injection He2 as _ _ Hs2.
  apply dict_get_in in Hs1. apply dict_get_in in Hs2.
  destruct (keys (survival st0)) as [|k1 [|k2 ks]]; simpl in *.
  - contradiction.
  - exfalso. destruct Hs1 as [->|[]]. destruct Hs2 as [Hx|[]]. congruence.
  - lia.
Qed.

Lemma spellings_are_separate_entries_witness :
  lower "CSRT" = lower "csrt" /\
  keys (survival (DemoRuns.start ["csrt"; "CSRT"])) = ["csrt"; "CSRT"] /\
  entry Demo.env (DemoRuns.start ["csrt"; "CSRT"]) "CSRT" =
    (Some (Some "csrt"), Some false, Some 0%nat).
Proof.
  split; [reflexivity|]. split; [reflexivity|].
  refine (proj1 (proj2 (proj2
    (spellings_are_separate_entries Demo.env (Demo.conf 1)
       (Demo.roi (Demo.conf 1)) ["csrt"; "CSRT"] "csrt" "CSRT" "csrt"
       _ _ _ _ _ eq_refl eq_refl)))).
  - now left.
  - right. now left.
  - discriminate.
  - discriminate.
  - discriminate.
Defined.

(** The same OpenCV with other attributes in the [cv2] namespace itself. *)
Definition with_attr (E : cv2)
    (a : string -> option (result (Tracker E))) : cv2 :=
  {| Frame := Frame E; Gray := Gray E; Tracker := Tracker E;
     cvtColor := cvtColor E; crop := crop E; Scores := Scores E;
     matchTemplate := matchTemplate E; minMaxLoc := minMaxLoc E;
     legacy := legacy E; attr := a;
     tracker_init := tracker_init E; tracker_update := tracker_update E |}.

(** X8.  When [cv2.legacy] offers a factory, it decides: whatever the
    [cv2] namespace itself holds under that name changes nothing to what
    [create_tracker] returns or raises, and an exception of the legacy
    factory is not retried with the other one. *)
Theorem legacy_factory_decides (E : cv2)
    (has : string -> option (result (Tracker E)))
    (a : string -> option (result (Tracker E))) (m : string) :
  legacy E = Some has ->
  (forall name, In name ["TrackerCSRT_create"; "TrackerKCF_create";
                         "TrackerMOSSE_create"] -> has name <> None) ->
  create_tracker (with_attr E a) m = create_tracker E m /\
  (forall name call, has name = Some call -> _create E name = call).
Proof.
  intros Hleg Hhas. split.
  - unfold create_tracker, _create. simpl. rewrite Hleg.
    assert (Hf : forall name,
      In name ["TrackerCSRT_create"; "TrackerKCF_create"; "TrackerMOSSE_create"] ->
      match has name with
      | Some call => call
      | None => match a name with
                | Some call => call
                | None => Raise ("Tracker type '" ++ name ++
                                 "' is not available in your OpenCV build.")
                end
      end =
      match has name with
      | Some call => call
      | None => match attr E name with
                | Some call => call
                | None => Raise ("Tracker type '" ++ name ++
                                 "' is not available in your OpenCV build.")
                end
      end).
    { intros name Hin. specialize (Hhas name Hin).
      destruct (has name); [reflexivity | contradiction]. }
    destruct (lower m =? "csrt"); [apply Hf; simpl; auto|].
    destruct (lower m =? "kcf"); [apply Hf; simpl; auto|].
    destruct (lower m =? "mosse"); [apply Hf; simpl; auto|].
    reflexivity.
  - intros name call Hcall. unfold _create. now rewrite Hleg, Hcall.
Qed.

Module LegacyBuild.
(** A build whose [cv2.legacy] has the three factories, CSRT's raising. *)
Definition has (name : string) : option (result string) :=
  if name =? "TrackerCSRT_create" then Some (Raise "out of memory")
  else if name =? "TrackerKCF_create" then Some (Ok "kcf")
  else if name =? "TrackerMOSSE_create" then Some (Ok "mosse")
  else None.

Definition env : cv2 :=
  {| Frame := Demo.frame; Gray := Q; Tracker := string;
     cvtColor := cvtColor Demo.env; crop := crop Demo.env; Scores := Q;
     matchTemplate := matchTemplate Demo.env; minMaxLoc := minMaxLoc Demo.env;
     legacy := Some has; attr := fun _ => Some (Ok "plain");
     tracker_init := tracker_init Demo.env;
     tracker_update := tracker_update Demo.env |}.
End LegacyBuild.

Lemma legacy_factory_decides_witness :
  legacy LegacyBuild.env = Some LegacyBuild.has /\
  create_tracker (with_attr LegacyBuild.env (fun _ => None)) "csrt" =
    Raise "out of memory".
Proof.
  split; [reflexivity|].
  refine (proj1 (legacy_factory_decides LegacyBuild.env LegacyBuild.has
                   (fun _ => None) "csrt" eq_refl _)).
  intros name [<-|[<-|[<-|[]]]]; discriminate.
Defined.

Lemma visits_use_template (E : cv2) (st0 st : session E) :
  visits E st0 st ->
  use_template st = use_template st0 /\ template st = template st0.
Proof.
  intros Hv. induction Hv as [|s f s' e Hv IH Hs]; [auto|].
  destruct (process_frame_total _ _ _ _ _ Hs) as (_ & Hu & Ht).
  destruct IH. split; congruence.
Qed.

(** X9.  Template matching is switched on by the exact name [template]
    only.  Any other spelling of it goes to [create_tracker], which knows
    no tracker of that name: the method is warned about as an unknown
    tracker type and gets no entry. *)
Theorem template_needs_exact_name (E : cv2) (first_frame : Frame E)
    (bbox : Z * Z * Z * Z) (methods : list string) (st : session E) :
  visits E (fst (init_session E first_frame bbox methods)) st ->
  (use_template st = true <-> In "template" methods) /\
  (In "template" (keys (survival st)) <-> In "template" methods) /\
  (forall m, In m methods -> m <> "template" -> lower m = "template" ->
     try_init E first_frame bbox m = Raise "Unknown tracker type: template" /\
     ~ In m (keys (survival st)) /\
     In (Print ("[WARN] Could not create tracker '" ++ m ++
                "': Unknown tracker type: template"))
        (snd (init_session E first_frame bbox methods))).
Proof.
  intros Hv.
  destruct (init_session_fresh E first_frame bbox methods) as (_ & _ & Hu0).
  destruct (visits_use_template E _ st Hv) as [Hu _].
  destruct (session_keys E first_frame bbox methods st Hv) as (_ & _ & _ & Ks).
  split.
  { rewrite Hu, Hu0. apply existsb_eqb_in. }
  split.
  { rewrite Ks, init_order_in. split; [tauto|]. intros Hin. auto. }
  intros m Hin Hne Hlow.
  assert (Hr : try_init E first_frame bbox m =
               Raise "Unknown tracker type: template").
  { unfold try_init, create_tracker. rewrite Hlow. reflexivity. }
  split; [assumption|]. split.
  - rewrite Ks, init_order_in. intros [_ [Hx|Hx]]; [contradiction|].
    unfold initializes in Hx. rewrite Hr in Hx. discriminate.
  - unfold init_session. rewrite init_builtin_events.
    apply in_flat_map. exists m. split; [assumption|].
    unfold init_message. apply String.eqb_neq in Hne. rewrite Hne, Hr.
    now left.
Qed.

Lemma template_needs_exact_name_witness :
  visits Demo.env (DemoRuns.start ["Template"; "csrt"])
    (DemoRuns.start ["Template"; "csrt"]) /\
  (use_template (DemoRuns.start ["Template"; "csrt"]) = true <->
   In "template" ["Template"; "csrt"]).
Proof.
  split; [apply visits_start|].
  exact (proj1 (template_needs_exact_name Demo.env (Demo.conf 1)
                  (Demo.roi (Demo.conf 1)) ["Template"; "csrt"] _
                  (visits_start Demo.env _))).
Defined.

(** ** The order of the summary (lines 57-79, 162-163) *)

Lemma fold_add_key_fresh (l : list string) : forall acc,
  NoDup l -> (forall x, In x l -> ~ In x acc) ->
  fold_left add_key l acc = acc ++ l.
Proof.
  induction l as [|k l IH]; intros acc Hnd Hfresh; simpl.
  - now rewrite app_nil_r.
  - inversion Hnd as [|? ? Hk Hnd']; subst.
    assert (Hadd : add_key acc k = acc ++ [k]).
    { unfold add_key. destruct (existsb (String.eqb k) acc) eqn:Hex;
        [|reflexivity].
      apply existsb_eqb_in in Hex. exfalso.
      apply (Hfresh k); [now left | assumption]. }
    rewrite Hadd, IH; [now rewrite <- app_assoc | assumption |].
    intros x Hx Hin. apply in_app_or in Hin. destruct Hin as [Hin|[<-|[]]].
    + apply (Hfresh x); [now right | assumption].
    + contradiction.
Qed.

(** X10.  When no method is requested twice, the summary lists the
    template first, wherever it stood in the request, and then the built-in
    methods that initialized, in the order in which they were requested. *)
Theorem summary_order (E : cv2) (first_frame : Frame E)
    (bbox : Z * Z * Z * Z) (methods : list string) (st : session E) :
  NoDup methods ->
  visits E (fst (init_session E first_frame bbox methods)) st ->
  keys (survival st) =
    (if existsb (String.eqb "template") methods then ["template"] else []) ++
    filter (fun m => negb (m =? "template") &&
                     initializes E first_frame bbox m) methods.
Proof.
  intros Hnd Hv.
  destruct (session_keys E first_frame bbox methods st Hv) as (_ & _ & _ & Ks).
  rewrite Ks. unfold init_order. apply fold_add_key_fresh.
  - now apply NoDup_filter.
  - intros x Hx Hin. apply filter_In in Hx. destruct Hx as [_ Hok].
    unfold builtin_ok in Hok. apply andb_true_iff in Hok.
    destruct Hok as [Hne _].
    destruct (existsb (String.eqb "template") methods); [|destruct Hin].
    destruct Hin as [<-|[]]. discriminate.
Qed.

Lemma summary_order_witness :
  NoDup ["mosse"; "kcf"; "template"; "csrt"] /\
  keys (survival (DemoRuns.start ["mosse"; "kcf"; "template"; "csrt"])) =
    ["template"; "kcf"; "csrt"].
Proof.
  assert (Hnd : NoDup ["mosse"; "kcf"; "template"; "csrt"]).
  { repeat constructor; simpl; intuition discriminate. }
  split; [exact Hnd|].
  exact (summary_order Demo.env (Demo.conf 1) (Demo.roi (Demo.conf 1))
           ["mosse"; "kcf"; "template"; "csrt"] _ Hnd
           (visits_start Demo.env _)).
Defined.

(** ** One tracker against the others (lines 115-131) *)

(** X11.  What a frame does to a built-in entry depends on that entry and
    on the frame alone: in two runs that differ in the requested methods,
    in the state of every other tracker and in the frame counter, an entry
    that is the same in both and not lost is the same in both after the
    frame. *)
Theorem builtin_entry_isolated (E : cv2)
    (first_frame1 first_frame2 : Frame E) (bbox1 bbox2 : Z * Z * Z * Z)
    (methods1 methods2 : list string) (frame : Frame E)
    (s1 s2 s1' s2' : session E) (ev1 ev2 : list event) (name : string) :
  visits E (fst (init_session E first_frame1 bbox1 methods1)) s1 ->
  visits E (fst (init_session E first_frame2 bbox2 methods2)) s2 ->
  name <> "template" ->
  dict_get (lost s1) name = Some false ->
  entry E s1 name = entry E s2 name ->
  process_frame E frame s1 = Some (s1', ev1) ->
  process_frame E frame s2 = Some (s2', ev2) ->
  entry E s1' name = entry E s2' name.
Proof.
  intros Hv1 Hv2 Hne Hl He H1 H2.
  destruct (session_keys E first_frame1 bbox1 methods1 s1 Hv1) as (Hwf1 & _).
  destruct (session_keys E first_frame2 bbox2 methods2 s2 Hv2) as (Hwf2 & _).
  unfold entry in He. injection He as Het Hel Hes.
  assert (Hk : In name (keys (trackers s1))).
  { rewrite <- (wf_lost E s1 Hwf1). eapply dict_get_in; eauto. }
  destruct (in_keys_get _ _ Hk) as [tr Htr].
  destruct tr as [t|].
  2:{ exfalso. apply Hne. now apply (wf_handle E s1 Hwf1). }
  assert (Hks : In name (keys (survival s1))).
  { now rewrite (wf_survival E s1 Hwf1). }
  destruct (in_keys_get _ _ Hks) as [n Hn].
  pose proof (process_frame_builtin E frame s1 s1' ev1 name t n
                Hwf1 Hne Htr Hl Hn H1) as Hs1.
  pose proof (process_frame_builtin E frame s2 s2' ev2 name t n
                Hwf2 Hne) as Hs2.
  rewrite <- Het, <- Hel, <- Hes in Hs2. specialize (Hs2 Htr Hl Hn H2).
  destruct (tracker_update E t frame) as [t' [ok [[[bx by_] bw] bh]]].
  destruct Hs1 as [_ Hs1]. destruct Hs2 as [_ Hs2]. congruence.
Qed.

Lemma builtin_entry_isolated_witness :
  visits Demo.env (DemoRuns.start ["csrt"]) (DemoRuns.start ["csrt"]) /\
  entry Demo.env (DemoRuns.start ["csrt"]) "csrt" =
    entry Demo.env (DemoRuns.start ["template"; "kcf"; "csrt"]) "csrt" /\
  entry Demo.env
    (Build_session Demo.env [("csrt", Some "csrt")] [("csrt", false)]
       [("csrt", 1%nat)] false None 1) "csrt" =
  entry Demo.env
    (Build_session Demo.env
       [("template", None); ("kcf", Some "kcf"); ("csrt", Some "csrt")]
       [("template", true); ("kcf", false); ("csrt", false)]
       [("template", 0%nat); ("kcf", 1%nat); ("csrt", 1%nat)]
       true (Some 1) 1) "csrt".
Proof.
  split; [apply visits_start|]. split; [reflexivity|].
  exact (builtin_entry_isolated Demo.env (Demo.conf 1) (Demo.conf 1)
           (Demo.roi (Demo.conf 1)) (Demo.roi (Demo.conf 1))
           ["csrt"] ["template"; "kcf"; "csrt"] (Demo.conf 0.4)
           _ _ _ _
           [Update "csrt" 1; Show 1]
           [Match 1 0.4 (3, 4)%Z; Update "kcf" 1; Update "csrt" 1; Show 1]
           "csrt"
           (visits_start Demo.env _) (visits_start Demo.env _)
           ltac:(discriminate) eq_refl eq_refl eq_refl eq_refl).
Defined.

(** ** The quit key (lines 150-154) *)

(** X12.  Only the low byte of what [cv2.waitKey] returns is looked at: the
    loop quits exactly when that value is 27 or 113 modulo 256.  In
    particular -1, which [waitKey] returns when no key is pressed, never
    quits, and a key code with modifier bits set above the low byte quits
    like the plain key. *)
Theorem quit_key_low_byte (k : Z) :
  (quit_key k = true <-> (k mod 256 = 27 \/ k mod 256 = 113)%Z) /\
  quit_key (-1) = false /\
  (forall j, quit_key (k + 256 * j) = quit_key k).
Proof.
  assert (Hland : forall z, Z.land z 255 = (z mod 256)%Z).
  { intros z. change 255%Z with (Z.ones 8). rewrite Z.land_ones by lia.
    reflexivity. }
  split; [|split].
  - unfold quit_key. rewrite Hland, orb_true_iff, !Z.eqb_eq. tauto.
  - reflexivity.
  - intros j. unfold quit_key. rewrite !Hland.
    replace (k + 256 * j)%Z with (k + j * 256)%Z by lia.
    now rewrite Z.mod_add by lia.
Qed.

(** ** Truncated boxes (lines 126-129) *)

Lemma int_nonpositive (v : Q) : (int v <= 0)%Z <-> v < 1.
Proof.
  unfold int, Qlt. destruct v as [a b]. simpl.
  rewrite ?Z.mul_1_r, ?Z.mul_1_l.
  pose proof (Pos2Z.is_pos b) as Hb.
  split.
  - intros Hq. destruct (Z_lt_le_dec a (Z.pos b)) as [Hlt|Hle]; [assumption|].
    exfalso.
    assert (H1 : (Z.quot (Z.pos b) (Z.pos b) <= Z.quot a (Z.pos b))%Z)
      by (apply Z.quot_le_mono; lia).
    rewrite Z.quot_same in H1 by lia. lia.
  - intros Hlt. destruct (Z_lt_le_dec a 0) as [Hneg|Hpos].
    + replace a with (- (- a))%Z by lia.
      rewrite Z.quot_opp_l by lia.
      assert (0 <= Z.quot (- a) (Z.pos b))%Z by (apply Z.quot_pos; lia). lia.
    + rewrite Z.quot_small by lia. lia.
Qed.

(** X13.  For a built-in entry that is not lost, the frame loses it exactly
    when its update reports failure or a region less than one pixel wide or
    less than one pixel high: a width of 0.9 loses the tracker, a width of
    1 does not. *)
Theorem builtin_lost_iff_below_one (E : cv2) (first_frame : Frame E)
    (bbox : Z * Z * Z * Z) (methods : list string) (frame : Frame E)
    (st st' : session E) (evs : list event) (name : string) (t : Tracker E) :
  visits E (fst (init_session E first_frame bbox methods)) st ->
  name <> "template" ->
  dict_get (trackers st) name = Some (Some t) ->
  dict_get (lost st) name = Some false ->
  process_frame E frame st = Some (st', evs) ->
  let '(_, (ok, (_, _, w, h))) := tracker_update E t frame in
  dict_get (lost st') name = Some true <-> (ok = false \/ w < 1 \/ h < 1).
Proof.
  intros Hv Hne Ht Hl H.
  destruct (session_keys E first_frame bbox methods st Hv) as (Hwf & _).
  assert (Hks : In name (keys (survival st))).
  { rewrite (wf_survival E st Hwf), <- (wf_lost E st Hwf).
    eapply dict_get_in; eauto. }
  destruct (in_keys_get _ _ Hks) as [n Hn].
  pose proof (process_frame_builtin E frame st st' evs name t n
                Hwf Hne Ht Hl Hn H) as Hstep.
  destruct (tracker_update E t frame) as [t' [ok [[[bx by_] w] h]]].
  destruct Hstep as [_ Hent]. unfold entry in Hent.
  injection Hent as _ Hl' _. rewrite Hl'.
  rewrite <- !int_nonpositive, <- !Z.leb_le.
  destruct ok, (int w <=? 0)%Z, (int h <=? 0)%Z; simpl;
    split; intros; try reflexivity; try discriminate; intuition discriminate.
Qed.

Lemma builtin_lost_iff_below_one_witness :
  visits Demo.env (DemoRuns.start ["csrt"]) (DemoRuns.start ["csrt"]) /\
  (dict_get [("csrt", true)] "csrt" = Some true <->
   (true = false \/ 0.9 < 1 \/ 20 < 1)).
Proof.
  split; [apply visits_start|].
  exact (builtin_lost_iff_below_one Demo.env (Demo.conf 1)
           (Demo.roi (Demo.conf 1)) ["csrt"]
           (Demo.box (true, (10, 10, 0.9, 20)))
           (DemoRuns.start ["csrt"])
           (Build_session Demo.env [("csrt", Some "csrt")] [("csrt", true)]
              [("csrt", 0%nat)] false None 1)
           [Update "csrt" 1; Show 1] "csrt" "csrt"
           (visits_start Demo.env _) ltac:(discriminate)
           eq_refl eq_refl eq_refl).
Defined.
